(** * Kaplan-Meier fitter: a shallow embedding of
    [lifelines/fitters/kaplan_meier_fitter.py]

    The development follows the source file top to bottom:

    - NumPy scalars are an interface ([NpArith], [NpElem], [NpInf]) with two
      instances: IEEE binary64 as Rocq's primitive floats (exact, with the
      elementary functions the kernel does not provide taken as parameters
      under their IEEE special-value contract) and the idealised reals, used
      for the Greenwood band where every value is finite.
    - NumPy's process-wide floating-point error mode ([np.seterr]) is an
      explicit piece of state, threaded through the two interval-contribution
      functions.
    - The fitter instance is its attribute dictionary, a [gmap string pyval];
      [setattr(self, name, v)] is an insertion.
    - The collaborators imported from [lifelines.utils] and the inherited
      methods are parameters of the section that embeds [fit]. *)

From Stdlib Require Import ZArith QArith Reals Lra Lia List Bool String Ascii.
From Stdlib Require Import Floats.
From stdpp Require Import base option list strings gmap.

Set Default Proof Using "Type".

(* ================================================================== *)
(** ** NumPy scalars *)

(** Arithmetic and comparison on array elements. [np_zero], [np_one] and
    [np_two] are the literals [0], [1] (or [1.0]) and [2] of the source. *)
Class NpArith (F : Type) := {
  np_zero : F;
  np_one : F;
  np_two : F;
  np_add : F -> F -> F;
  np_sub : F -> F -> F;
  np_mul : F -> F -> F;
  np_div : F -> F -> F;
  np_neg : F -> F;
  np_eqb : F -> F -> bool;
  np_ltb : F -> F -> bool
}.

(** The elementary functions [np.log], [np.exp] and [np.sqrt]. *)
Class NpElem (F : Type) := {
  np_log : F -> F;
  np_exp : F -> F;
  np_sqrt : F -> F
}.

(** The constant [np.inf]. *)
Class NpInf (F : Type) := { np_inf : F }.

(** *** IEEE binary64 *)

#[global] Instance float_arith : NpArith float := {|
  np_zero := 0%float;
  np_one := 1%float;
  np_two := 2%float;
  np_add := PrimFloat.add;
  np_sub := PrimFloat.sub;
  np_mul := PrimFloat.mul;
  np_div := PrimFloat.div;
  np_neg := PrimFloat.opp;
  np_eqb := PrimFloat.eqb;
  np_ltb := PrimFloat.ltb
|}.

#[global] Instance float_inf : NpInf float := {| np_inf := infinity |}.

(** The kernel has a correctly rounded square root but neither logarithm nor
    exponential: an instance is built from any pair of functions standing for
    the C library's [log] and [exp]. *)
Definition float_elem (flog fexp : float -> float) : NpElem float := {|
  np_log := flog;
  np_exp := fexp;
  np_sqrt := PrimFloat.sqrt
|}.

(** The special values of [log] fixed by IEEE 754 / C99 Annex F, which NumPy
    follows: a pole at either zero, not-a-number below zero, and a finite
    result on every finite positive argument. *)
Definition is_finite (x : float) : bool :=
  match Prim2SF x with
  | S754_zero _ | S754_finite _ _ _ => true
  | _ => false
  end.

Record ieee_log (flog : float -> float) : Prop := {
  log_pos_zero : flog 0%float = neg_infinity;
  log_neg_zero : flog (-0)%float = neg_infinity;
  log_negative : forall x, PrimFloat.ltb x 0 = true -> flog x = nan;
  log_pos_inf : flog infinity = infinity;
  log_nan : flog nan = nan;
  log_finite : forall x,
    PrimFloat.ltb 0 x = true -> PrimFloat.ltb x infinity = true ->
    is_finite (flog x) = true
}.

(** A function meeting the contract, constant on the finite positive range.
    It only serves to instantiate statements that hold for every conforming
    logarithm. *)
Definition log_table (x : float) : float :=
  match Prim2SF x with
  | S754_nan => nan
  | S754_zero _ => neg_infinity
  | S754_infinity false => infinity
  | S754_infinity true => nan
  | S754_finite true _ _ => nan
  | S754_finite false _ _ => 0%float
  end.

Definition exp_table (x : float) : float :=
  match Prim2SF x with
  | S754_nan => nan
  | S754_zero _ => 1%float
  | S754_infinity false => infinity
  | S754_infinity true => 0%float
  | S754_finite _ _ _ => 1%float
  end.

(** *** Idealised reals *)

#[global] Instance R_arith : NpArith R := {|
  np_zero := 0%R;
  np_one := 1%R;
  np_two := 2%R;
  np_add := Rplus;
  np_sub := Rminus;
  np_mul := Rmult;
  np_div := Rdiv;
  np_neg := Ropp;
  np_eqb := fun x y => if Req_dec_T x y then true else false;
  np_ltb := fun x y => if Rlt_dec x y then true else false
|}.

#[global] Instance R_elem : NpElem R := {|
  np_log := Rpower.ln;
  np_exp := Rtrigo_def.exp;
  np_sqrt := R_sqrt.sqrt
|}.

(* ================================================================== *)
(** ** Exceptions, warnings and NumPy's error mode *)

(** The four floating-point conditions NumPy reports. *)
Inductive fp_error := FpeDivide | FpeOver | FpeUnder | FpeInvalid.

(** The settings [np.seterr] accepts for each condition. *)
Inductive np_errmode := Ignore | Warn | Raise | Call | Print | Log.

Record np_errstate := {
  err_divide : np_errmode;
  err_over : np_errmode;
  err_under : np_errmode;
  err_invalid : np_errmode
}.

(** NumPy's start-up setting. *)
Definition np_default_errstate : np_errstate :=
  {| err_divide := Warn; err_over := Warn; err_under := Ignore; err_invalid := Warn |}.

Definition errmode_of (st : np_errstate) (k : fp_error) : np_errmode :=
  match k with
  | FpeDivide => err_divide st
  | FpeOver => err_over st
  | FpeUnder => err_under st
  | FpeInvalid => err_invalid st
  end.

(** [np.seterr(divide=..., over=..., under=..., invalid=...)]: a keyword that
    is not given leaves its setting alone. *)
Definition seterr_state (divide over under invalid : option np_errmode)
    (st : np_errstate) : np_errstate :=
  {| err_divide := default (err_divide st) divide;
     err_over := default (err_over st) over;
     err_under := default (err_under st) under;
     err_invalid := default (err_invalid st) invalid |}.

Inductive exn :=
  | StatError (msg : string)
  | AssertionError (msg : string)
  | AttributeError (attr : string)
  | TypeError (msg : string)
  | ValueError (msg : string)
  | FloatingPointError (k : fp_error)
  | Raised (callee : string) (e : exn).

(** What a floating-point condition leaves behind when it is not ignored and
    does not raise. *)
Inductive np_event :=
  | RuntimeWarning (k : fp_error)
  | Handled (m : np_errmode) (k : fp_error).

Inductive warning := StatisticalWarning (msg : string).

(** Process-wide NumPy state. *)
Record process := {
  np_err : np_errstate;
  np_events : list np_event
}.

(** State and exceptions. *)
Definition SE (S A : Type) : Type := S -> S * (exn + A).

#[global] Instance SE_ret {S} : MRet (SE S) := fun A a s => (s, inr a).
#[global] Instance SE_bind {S} : MBind (SE S) := fun A B f m s =>
  match m s with
  | (s', inl e) => (s', inl e)
  | (s', inr a) => f a s'
  end.

Definition raise {S A} (e : exn) : SE S A := fun s => (s, inl e).

(** An exception leaving a collaborator is tagged with the collaborator's
    name, which keeps it apart from the exceptions [fit] raises itself. *)
Definition external {S A} (callee : string) (m : SE S A) : SE S A := fun s =>
  match m s with
  | (s', inl e) => (s', inl (Raised callee e))
  | r => r
  end.

Definition NP (A : Type) : Type := SE process A.

Definition np_seterr (divide over under invalid : option np_errmode) : NP unit :=
  fun ps => ({| np_err := seterr_state divide over under invalid (np_err ps);
                np_events := np_events ps |}, inr tt).

Definition np_record (ev : np_event) : NP unit := fun ps =>
  ({| np_err := np_err ps; np_events := np_events ps ++ [ev] |}, inr tt).

(** A ufunc that met condition [k] consults the error mode. *)
Definition np_signal (k : fp_error) : NP unit := fun ps =>
  match errmode_of (np_err ps) k with
  | Ignore => (ps, inr tt)
  | Warn => np_record (RuntimeWarning k) ps
  | Raise => (ps, inl (FloatingPointError k))
  | m => np_record (Handled m k) ps
  end.

Definition np_when (b : bool) (m : NP unit) : NP unit :=
  if b then m else mret tt.

(* ================================================================== *)
(** ** The interval-contribution functions *)

Section Contributions.
Context {F : Type} {FA : NpArith F}.

(** Arithmetic between two Series that share the event table's index: a
    position stands for an index label. pandas evaluates it under its own
    [np.errstate(all="ignore")], so it reports nothing. *)
Definition series_sub (a b : list F) : list F := zip_with np_sub a b.
Definition series_mul (a b : list F) : list F := zip_with np_mul a b.
Definition series_div (a b : list F) : list F := zip_with np_div a b.
Definition scalar_mul (c : F) (a : list F) : list F := np_mul c <$> a.

(** [Series.replace(to_replace, value)]. *)
Definition series_replace (to_replace : list F) (value : F) (a : list F) : list F :=
  (fun x => if existsb (np_eqb x) to_replace then value else x) <$> a.

(** [np.log] on a Series is the ufunc itself: division by zero is reported
    for an argument equal to zero, an invalid operation for an argument
    below zero, each through the process-wide error mode. *)
Definition np_log_ufunc {FE : NpElem F} (a : list F) : NP (list F) :=
  _ ← np_when (existsb (fun x => np_eqb x np_zero) a) (np_signal FpeDivide);
  _ ← np_when (existsb (fun x => np_ltb x np_zero) a) (np_signal FpeInvalid);
  mret (np_log <$> a).

Definition _additive_f {FE : NpElem F} (population deaths : list F) : NP (list F) :=
  _ ← np_seterr (Some Ignore) None None (Some Ignore);
  a ← np_log_ufunc (series_sub population deaths);
  b ← np_log_ufunc population;
  mret (series_sub a b).

Definition _additive_var {FI : NpInf F} (population deaths : list F) : NP (list F) :=
  _ ← np_seterr (Some Ignore) None None None;
  mret (series_replace [np_inf] np_zero
          (series_div (scalar_mul np_one deaths)
                      (series_mul population (series_sub population deaths)))).
End Contributions.

(* ================================================================== *)
(** ** The event table and the degeneracy check *)

(** One row of the event table per time point. Times are array elements;
    the counts are sums of weights and are kept as exact rationals. *)
Record event_row (F : Type) := {
  event_at : F;
  removed : Q;
  observed : Q;
  censored : Q;
  entrance : Q;
  at_risk : Q
}.
Arguments event_at {F} _.
Arguments removed {F} _.
Arguments observed {F} _.
Arguments censored {F} _.
Arguments entrance {F} _.
Arguments at_risk {F} _.

(** [Series.cumsum()]. *)
Fixpoint cumsum_from (acc : Q) (l : list Q) : list Q :=
  match l with
  | [] => []
  | x :: rest => let s := (acc + x)%Q in s :: cumsum_from s rest
  end.

Definition cumsum (l : list Q) : list Q :=
  match l with
  | [] => []
  | x :: rest => x :: cumsum_from x rest
  end.

Definition q_min (a b : Q) : Q := if Qle_bool a b then a else b.

(** [Series.min()]: not-a-number ([None]) on an empty Series. *)
Definition series_min (l : list Q) : option Q :=
  match l with
  | [] => None
  | x :: rest => Some (fold_left q_min rest x)
  end.

(** [s.min() == 0]: a comparison with not-a-number is false. *)
Definition min_is_zero (l : list Q) : bool :=
  match series_min l with
  | Some m => Qeq_bool m 0
  | None => false
  end.

(** Position of the first occurrence of the minimum: a later element takes
    over only when it is strictly smaller. *)
Fixpoint argmin_from (best_i : nat) (best : Q) (i : nat) (l : list Q) : nat :=
  match l with
  | [] => best_i
  | x :: rest =>
      if Qle_bool best x then argmin_from best_i best (S i) rest
      else argmin_from i x (S i) rest
  end.

Definition argmin (l : list Q) : option nat :=
  match l with
  | [] => None
  | x :: rest => Some (argmin_from 0 x 1 rest)
  end.

(** [Series.idxmin()]: the index label at that position. *)
Definition idxmin {F} (s : list (F * Q)) : option F :=
  i ← argmin (snd <$> s); fst <$> s !! i.

(** [(event_table["entrance"] - event_table["removed"]).cumsum()], each
    value with its index label. *)
Definition net_population {F} (event_table : list (event_row F)) : list (F * Q) :=
  zip (event_at <$> event_table)
      (cumsum ((fun r => (entrance r - removed r)%Q) <$> event_table)).

(** *** The weights *)

(** [weights] as the caller passes it: a NumPy array or pandas Series, of
    float64 or of int64, or a Python list, which has no [astype]. *)
Inductive weights_arg :=
  | WFloat64 (a : list float)
  | WInt64 (a : list Z)
  | WList (l : list float).

Definition has_astype (weights : option weights_arg) : bool :=
  match weights with
  | Some (WList _) => false
  | _ => true
  end.

Definition int64_min : Z := -9223372036854775808.
Definition int64_max : Z := 9223372036854775807.

(** A finite float64 with its fraction dropped, as an unbounded integer. *)
Definition trunc (x : float) : option Z :=
  match Prim2SF x with
  | S754_zero _ => Some 0%Z
  | S754_finite s m e =>
      Some (cond_Zopp s (if (0 <=? e)%Z then Zpos m * 2 ^ e else Zpos m / 2 ^ (- e)))%Z
  | _ => None
  end.

(** [x.astype(int)] on a float64, with [int] the 64-bit integer it is on
    Linux and macOS: the C cast, truncation toward zero. For a value that
    is out of range, infinite or not a number C leaves the result
    undefined; NumPy on x86-64 returns the smallest int64. *)
Definition astype_int (x : float) : Z :=
  match trunc x with
  | Some z => if ((int64_min <=? z) && (z <=? int64_max))%Z then z else int64_min
  | None => int64_min
  end.

(** An int64 as float64, rounded to nearest, ties to even: the conversion
    NumPy makes to compare an int64 array with a float64 array. *)
Definition float_of_int (z : Z) : float :=
  SF2Prim (binary_normalize prec emax z 0 false).

(** [(weights.astype(int) != weights).any()] on a float64 array;
    not-a-number is unequal to everything. *)
Definition any_non_integer (weights : list float) : bool :=
  existsb (fun w => negb (PrimFloat.eqb (float_of_int (astype_int w)) w)) weights.

(** The same test on what was passed: an int64 array is its own cast. *)
Definition weights_test (weights : weights_arg) : option bool :=
  match weights with
  | WFloat64 a => Some (any_non_integer a)
  | WInt64 _ => Some false
  | WList _ => None
  end.

(* ================================================================== *)
(** ** Messages *)

Definition dquote : string := String (ascii_of_nat 34) EmptyString.

Definition weights_warning_text : string :=
  "It looks like your weights are not integers, possibly propensity scores then?
  It's important to know that the naive variance estimates of the coefficients are biased. Instead use Monte Carlo to
  estimate the variances. See paper " +:+ dquote +:+
  "Variance estimation when using inverse probability of treatment weighting (IPTW) with survival analysis"
  +:+ dquote +:+ "
  or " +:+ dquote +:+
  "Adjusted Kaplan-Meier estimator and log-rank test with inverse probability of treatment weighting for survival data."
  +:+ dquote +:+ "
                  ".

(** The [StatError] text around the [%g] field. *)
Definition degenerate_text (ix : string) : string :=
  "There are too few early truncation times and too many events. S(t)==0 for all t>"
  +:+ ix +:+ ". Recommend BreslowFlemingHarringtonFitter.".

Definition ci_labels_text : string := "ci_labels should be a length 2 array.".

(* ================================================================== *)
(** ** The fitter's state *)

(** A DataFrame: an index ([None] when the frame keeps the index of the
    data it was built from) and named columns, in order. *)
Record DataFrame (F : Type) := {
  df_index : option (list F);
  df_columns : list (string * list F)
}.
Arguments df_index {F} _.
Arguments df_columns {F} _.

(** Values an attribute of the fitter can hold. *)
Inductive pyval (F : Type) :=
  | PNone
  | PStr (s : string)
  | PFloat (x : F)
  | PArray (a : list F)
  | PFrame (df : DataFrame F)
  | PTable (t : list (event_row F))
  | PMethod (name : string).
Arguments PNone {F}.
Arguments PStr {F} s.
Arguments PFloat {F} x.
Arguments PArray {F} a.
Arguments PFrame {F} df.
Arguments PTable {F} t.
Arguments PMethod {F} name.

(** The fitter's attribute dictionary, the warnings [fit] has issued itself,
    and the NumPy state of the process. *)
Record world (F : Type) := {
  attrs : gmap string (pyval F);
  warned : list warning;
  proc : process
}.
Arguments attrs {F} _.
Arguments warned {F} _.
Arguments proc {F} _.

(** What [fit] and [_bounds] use from [lifelines.utils] and from the parent
    class, with Python's [%g] conversion. A collaborator either returns or
    raises; the accumulation scaffold runs the contribution functions it is
    handed and so works on the process state. *)
Class Collaborators (F : Type) := {
  inv_normal_cdf : F -> F;
  fmt_g : F -> string;
  check_nans_or_infs : list F -> exn + unit;
  _preprocess_inputs :
    list F -> option (list F) -> option (list F) -> option (list F) -> option weights_arg ->
    exn + (list F * list F * list F * option (list F) * list (event_row F));
  _additive_estimate :
    list (event_row F) -> list F ->
    (list F -> list F -> NP (list F)) -> (list F -> list F -> NP (list F)) ->
    bool -> NP (list F * list F);
  median_survival_times : DataFrame F -> bool -> exn + F;
  _update_docstrings : gmap string (pyval F) -> exn + unit
}.

(* ================================================================== *)
(** ** The fitter *)

Section Fitter.
Context {F : Type} {FA : NpArith F} {FE : NpElem F} {FI : NpInf F}.
Context {lib : Collaborators F}.

Definition set_attr (name : string) (v : pyval F) (w : world F) : world F :=
  {| attrs := <[name := v]> (attrs w); warned := warned w; proc := proc w |}.

Definition self_setattr (name : string) (v : pyval F) : SE (world F) unit := fun w =>
  (set_attr name v w, inr tt).

Definition self_getattr (name : string) : SE (world F) (pyval F) := fun w =>
  match attrs w !! name with
  | Some v => (w, inr v)
  | None => (w, inl (AttributeError name))
  end.

Definition add_warning (wn : warning) (w : world F) : world F :=
  {| attrs := attrs w; warned := warned w ++ [wn]; proc := proc w |}.

Definition warnings_warn (wn : warning) : SE (world F) unit := fun w =>
  (add_warning wn w, inr tt).

Definition set_proc (p : process) (w : world F) : world F :=
  {| attrs := attrs w; warned := warned w; proc := p |}.

(** Running NumPy-level code inside a method. *)
Definition in_process {A} (m : NP A) : SE (world F) A := fun w =>
  let '(p, r) := m (proc w) in (set_proc p w, r).

(** Calling a collaborator that touches no state. *)
Definition call {A} (callee : string) (r : exn + A) : SE (world F) A := fun w =>
  (w, match r with inl e => inl (Raised callee e) | inr a => inr a end).

(** Calling an inherited method, which sees the instance. *)
Definition call_on_self {A} (callee : string) (f : gmap string (pyval F) -> exn + A)
    : SE (world F) A := fun w => call callee (f (attrs w)) w.

Definition of_option {A} (e : exn) (o : option A) : SE (world F) A :=
  match o with Some a => mret a | None => raise e end.

(** Uses of an attribute at the type the code needs it at. *)
Definition as_str (v : pyval F) : option string :=
  match v with PStr s => Some s | _ => None end.
Definition as_float (v : pyval F) : option F :=
  match v with PFloat x => Some x | _ => None end.
Definition as_array (v : pyval F) : option (list F) :=
  match v with PArray a => Some a | _ => None end.
Definition as_frame (v : pyval F) : option (DataFrame F) :=
  match v with PFrame df => Some df | _ => None end.
Definition as_table (v : pyval F) : option (list (event_row F)) :=
  match v with PTable t => Some t | _ => None end.

Definition self_get {A} (name : string) (cast : pyval F -> option A) : SE (world F) A :=
  v ← self_getattr name; of_option (TypeError name) (cast v).

(** *** pandas and NumPy array operations

    Outside the two contribution functions the floating-point status of
    an array operation is not followed: [np.exp] and the band formula are
    taken for the values they compute. *)

(** [pd.DataFrame(data, columns=[label])]. *)
Definition frame_of_column (label : string) (data : list F) : DataFrame F :=
  {| df_index := None; df_columns := [(label, data)] |}.

(** [pd.DataFrame(index=index)]. *)
Definition frame_of_index (index : list F) : DataFrame F :=
  {| df_index := Some index; df_columns := [] |}.

Definition frame_nrows (df : DataFrame F) : nat :=
  match df_index df, df_columns df with
  | Some ix, _ => length ix
  | None, (_, col) :: _ => length col
  | None, [] => 0
  end.

(** [df.values] of a frame with a single column is that column; the band
    formula cannot be stored for any other shape. *)
Definition frame_values (df : DataFrame F) : option (list F) :=
  match df_columns df with
  | [(_, col)] => Some col
  | _ => None
  end.

Fixpoint columns_set (c : string) (vals : list F) (cols : list (string * list F))
    : list (string * list F) :=
  match cols with
  | [] => [(c, vals)]
  | (c', v') :: rest =>
      if decide (c' = c) then (c, vals) :: rest
      else (c', v') :: columns_set c vals rest
  end.

(** [df[c] = vals]: the column is replaced or appended; its length has to
    be the frame's. *)
Definition frame_setitem (df : DataFrame F) (c : string) (vals : list F)
    : exn + DataFrame F :=
  if decide (length vals = frame_nrows df)
  then inr {| df_index := df_index df; df_columns := columns_set c vals (df_columns df) |}
  else inl (ValueError "Length of values does not match length of index").

(** NumPy broadcasting of two column vectors. *)
Definition broadcast2 (f : F -> F -> F) (a b : list F) : option (list F) :=
  if decide (length a = length b) then Some (zip_with f a b)
  else match a, b with
       | [x], _ => Some (f x <$> b)
       | _, [y] => Some ((fun x => f x y) <$> a)
       | _, _ => None
       end.

(** *** [_bounds] *)

(** One element of each band column. *)
Definition greenwood_upper (z v c : F) : F :=
  np_exp (np_neg (np_exp (np_add (np_log (np_neg v)) (np_div (np_mul z (np_sqrt c)) v)))).

Definition greenwood_lower (z v c : F) : F :=
  np_exp (np_neg (np_exp (np_sub (np_log (np_neg v)) (np_div (np_mul z (np_sqrt c)) v)))).

Definition default_ci_labels (label : string) (alpha : F) : list string :=
  [label +:+ "_upper_" +:+ fmt_g (np_sub np_one alpha);
   label +:+ "_lower_" +:+ fmt_g (np_sub np_one alpha)].

Definition band_column (g : F -> F -> F) (v : option (list F)) (cumulative_sq_ : list F)
    : SE (world F) (list F) :=
  v ← of_option (ValueError "Wrong number of items passed") v;
  of_option (ValueError "operands could not be broadcast together")
            (broadcast2 g v cumulative_sq_).

Definition _bounds (cumulative_sq_ : list F) (alpha : F) (ci_labels : option (list string))
    : SE (world F) (DataFrame F) :=
  let z := inv_normal_cdf (np_sub np_one (np_div alpha np_two)) in
  timeline ← self_get "timeline" as_array;
  let df := frame_of_index timeline in
  estimate ← self_get "_KaplanMeierFitter__estimate" as_frame;
  let v := fmap (M:=list) np_log <$> frame_values estimate in
  ci_labels ← match ci_labels with
              | None => label ← self_get "_label" as_str;
                        mret (default_ci_labels label alpha)
              | Some l => mret l
              end;
  match ci_labels with
  | [l0; l1] =>
      upper ← band_column (greenwood_upper z) v cumulative_sq_;
      df ← call "DataFrame.__setitem__" (frame_setitem df l0 upper);
      lower ← band_column (greenwood_lower z) v cumulative_sq_;
      df ← call "DataFrame.__setitem__" (frame_setitem df l1 lower);
      mret df
  | _ => raise (AssertionError ci_labels_text)
  end.

(** *** [fit] *)

Definition _check_values (array : list F) : SE (world F) unit :=
  call "check_nans_or_infs" (check_nans_or_infs array).

(** [alpha if alpha else self.alpha]: [None] and zero are falsy. *)
Definition alpha_or_default (alpha : option F) : SE (world F) (pyval F) :=
  match alpha with
  | Some a => if np_eqb a np_zero then self_getattr "alpha" else mret (PFloat a)
  | None => self_getattr "alpha"
  end.

(** The check made when entry times are given. *)
Definition degeneracy_check (event_table : list (event_row F)) : SE (world F) unit :=
  let n := length event_table in
  let net := net_population event_table in
  let head := take (n / 2) net in
  if min_is_zero (snd <$> head) then
    ix ← of_option (ValueError "attempt to get argmin of an empty sequence") (idxmin head);
    raise (StatError (degenerate_text (fmt_g ix)))
  else mret tt.

Definition estimate_name_of (left_censorship : bool) : string :=
  if negb left_censorship then "survival_function_" else "cumulative_density_".
#[global] Arguments estimate_name_of !left_censorship /.

Definition fit (durations : list F) (event_observed timeline entry : option (list F))
    (label : string) (alpha : option F) (left_censorship : bool)
    (ci_labels : option (list string)) (weights : option weights_arg) : SE (world F) unit :=
  _ ← _check_values durations;
  _ ← match event_observed with
      | Some e => _check_values e
      | None => mret tt
      end;
  _ ← match weights with
      | Some ws =>
          test ← of_option (AttributeError "astype") (weights_test ws);
          if (test : bool)
          then warnings_warn (StatisticalWarning weights_warning_text)
          else mret tt
      | None => mret tt
      end;
  let estimate_name := estimate_name_of left_censorship in
  v ← call "_preprocess_inputs"
        (_preprocess_inputs durations event_observed timeline entry weights);
  let '(v_durations, v_event_observed, v_timeline, v_entry, v_event_table) := v in
  _ ← self_setattr "durations" (PArray v_durations);
  _ ← self_setattr "event_observed" (PArray v_event_observed);
  _ ← self_setattr "timeline" (PArray v_timeline);
  _ ← self_setattr "entry" (from_option PArray PNone v_entry);
  _ ← self_setattr "event_table" (PTable v_event_table);
  _ ← self_setattr "_label" (PStr label);
  alpha ← alpha_or_default alpha;
  event_table ← self_get "event_table" as_table;
  self_timeline ← self_get "timeline" as_array;
  r ← in_process (external "_additive_estimate"
         (_additive_estimate event_table self_timeline
            _additive_f _additive_var left_censorship));
  let '(log_survival_function, cumulative_sq_) := r in
  _ ← match entry with
      | Some _ => event_table ← self_get "event_table" as_table;
                  degeneracy_check event_table
      | None => mret tt
      end;
  self_label ← self_get "_label" as_str;
  _ ← self_setattr estimate_name
        (PFrame (frame_of_column self_label (np_exp <$> log_survival_function)));
  estimate ← self_getattr estimate_name;
  _ ← self_setattr "_KaplanMeierFitter__estimate" estimate;
  alpha ← of_option (TypeError "alpha") (as_float alpha);
  ci ← _bounds cumulative_sq_ alpha ci_labels;
  _ ← self_setattr "confidence_interval_" (PFrame ci);
  estimate ← self_get "_KaplanMeierFitter__estimate" as_frame;
  median ← call "median_survival_times" (median_survival_times estimate left_censorship);
  _ ← self_setattr "median_" (PFloat median);
  _ ← self_setattr "_cumulative_sq_" (PArray cumulative_sq_);
  _ ← self_setattr "_estimation_method" (PStr estimate_name);
  _ ← self_setattr "_estimate_name" (PStr estimate_name);
  _ ← self_setattr "_predict_label" (PStr label);
  _ ← call_on_self "_update_docstrings" _update_docstrings;
  _ ← self_setattr ("plot_" +:+ estimate_name) (PMethod "plot");
  mret tt.
End Fitter.

(* ================================================================== *)
(** ** Queries on the fitter *)

(** A named Series: values over an index. *)
Record Series (F : Type) := {
  s_values : list F;
  s_index : list F;
  s_name : pyval F
}.
Arguments s_values {F} _.
Arguments s_index {F} _.
Arguments s_name {F} _.

(** What [survival_function_at_times] uses from [lifelines.utils] and from
    the parent class: [predict] is an inherited method and sees the
    instance. *)
Class Queries (F : Type) := {
  coalesce : pyval F -> pyval F -> exn + pyval F;
  predict : gmap string (pyval F) -> list F -> exn + list F;
  _to_array : list F -> exn + list F
}.

Section Query.
Context {F : Type} {q : Queries F}.

(** [pd.Series(data, index=index, name=name)]: the data have to be as long
    as the index. *)
Definition series_new (data index : list F) (name : pyval F) : exn + Series F :=
  if decide (length data = length index)
  then inr {| s_values := data; s_index := index; s_name := name |}
  else inl (ValueError "Length of values does not match length of index").

(** The arguments of a call are evaluated before the call: [self._label]
    is read whatever [label] is. *)
Definition survival_function_at_times (times : list F) (label : pyval F)
    : SE (world F) (Series F) :=
  self_label ← self_getattr "_label";
  label ← call "coalesce" (coalesce label self_label);
  data ← call_on_self "predict" (fun self => predict self times);
  index ← call "_to_array" (_to_array times);
  call "Series" (series_new data index label).
End Query.

(* ================================================================== *)
(** ** Vocabulary of the statements *)

(** [wp m Q E s]: run from [s], [m] either returns [a] in a state [s'] with
    [Q a s'], or raises [e] in a state [s'] with [E e s']. *)
Definition wp {S A} (m : SE S A) (Q : A -> S -> Prop) (E : exn -> S -> Prop) (s : S) : Prop :=
  match m s with
  | (s', inr a) => Q a s'
  | (s', inl e) => E e s'
  end.



(** The exceptions that can leave [_bounds]. *)
Definition raised_by_bounds (e : exn) : Prop :=
  match e with
  | AttributeError _ | TypeError _ | ValueError _ | AssertionError _ => True
  | Raised callee _ => callee = "DataFrame.__setitem__"
  | _ => False
  end.

(** The first index label at which a labelled Series is zero. *)
Definition first_zero {F} (s : list (F * Q)) : option F :=
  fst <$> find (fun tv => Qeq_bool tv.2 0) s.

(** The running net population in the words of the specification:
    cumulative entrances minus cumulative removals. *)
Definition cumulative_net {F} (event_table : list (event_row F)) : list Q :=
  zip_with Qminus (cumsum (entrance <$> event_table)) (cumsum (removed <$> event_table)).

(** The condition under which the degeneracy check fires. *)
Definition degenerate {F} (event_table : list (event_row F)) : bool :=
  min_is_zero ((take (length event_table / 2) (net_population event_table)).*2).

Section Vocabulary.
Context {F : Type} {FA : NpArith F}.

(** The state after the weights have been looked at. *)
Definition after_weights_check (weights : option weights_arg) (w : world F) : world F :=
  match weights ≫= weights_test with
  | Some true => add_warning (StatisticalWarning weights_warning_text) w
  | _ => w
  end.

(** The value [alpha if alpha else self.alpha] takes. *)
Definition effective_alpha (alpha : option F) (m : gmap string (pyval F))
    : option (pyval F) :=
  match alpha with
  | Some a => if np_eqb a np_zero then m !! "alpha" else Some (PFloat a)
  | None => m !! "alpha"
  end.

(** The attributes once the event table has been stored. *)
Definition table_stage_writes
    (v : list F * list F * list F * option (list F) * list (event_row F))
    (label : string) (m : gmap string (pyval F)) : gmap string (pyval F) :=
  let '(v_durations, v_event_observed, v_timeline, v_entry, v_event_table) := v in
  <["_label" := PStr label]>
    (<["event_table" := PTable v_event_table]>
      (<["entry" := from_option PArray PNone v_entry]>
        (<["timeline" := PArray v_timeline]>
          (<["event_observed" := PArray v_event_observed]>
            (<["durations" := PArray v_durations]> m))))).

(** Validation lets the call through. *)
Definition validated {lib : Collaborators F}
    (durations : list F) (event_observed : option (list F)) : Prop :=
  check_nans_or_infs durations = inr tt /\
  forall a, event_observed = Some a -> check_nans_or_infs a = inr tt.

(** Control reaches the test on the entry times: validation passes, the
    weights, if any, have [astype], the event table [v] is built, a value
    [av] is found for [alpha], and the accumulation scaffold returns [r],
    leaving the process in state [p]. *)
Record reaches_check {FE : NpElem F} {FI : NpInf F} {lib : Collaborators F}
    (durations : list F) (event_observed timeline entry : option (list F))
    (alpha : option F) (left_censorship : bool) (weights : option weights_arg)
    (w : world F)
    (v : list F * list F * list F * option (list F) * list (event_row F))
    (av : pyval F) (p : process) (r : list F * list F) : Prop := {
  rc_validated : validated durations event_observed;
  rc_weights : has_astype weights = true;
  rc_table : _preprocess_inputs durations event_observed timeline entry weights = inr v;
  rc_alpha : effective_alpha alpha (attrs w) = Some av;
  rc_scaffold :
    _additive_estimate v.2 v.1.1.2 _additive_f _additive_var left_censorship (proc w)
    = (p, inr r)
}.

(** The attributes that hold results of the estimation. *)
Definition result_fields : list string :=
  ["survival_function_"; "cumulative_density_"; "confidence_interval_";
   "median_"; "_cumulative_sq_"].
End Vocabulary.

(** The attribute names [fit] assigns to. *)
Definition fit_writes (left_censorship : bool) : list string :=
  ["durations"; "event_observed"; "timeline"; "entry"; "event_table"; "_label";
   estimate_name_of left_censorship; "_KaplanMeierFitter__estimate";
   "confidence_interval_"; "median_"; "_cumulative_sq_"; "_estimation_method";
   "_estimate_name"; "_predict_label"; "plot_" +:+ estimate_name_of left_censorship].

(** A process in NumPy's start-up error mode. *)
Definition fresh_process : process :=
  {| np_err := np_default_errstate; np_events := [] |}.

(* ================================================================== *)
(** ** Worked calls *)

(** [log_table] and [exp_table] are exact at the special values and at
    [log 1 = 0] and [exp 0 = 1]; the calls below evaluate them nowhere
    else. *)
Definition table_elem : NpElem float := float_elem log_table exp_table.

(** Modelled from the spec: [validate(array)] fails if any element is
    not-a-number or infinite. *)
Definition check_finite (a : list float) : exn + unit :=
  if forallb is_finite a then inr tt
  else inl (TypeError "NaNs were detected in the dataset.").

(** The collaborators on one data set: the event table [v] that
    [_preprocess_inputs] builds from it, the columns [population] and
    [deaths] on which the scaffold runs the two contribution functions, the
    sequences [lsf] and [csq] it hands back, and the median. The quantile
    and the [%g] conversion are tabulated at the arguments that occur:
    0.975 with its quantile 1.959963984540054, and 1 and 0.95 as they
    print. *)
Definition collaborators_on
    (v : list float * list float * list float * option (list float) * list (event_row float))
    (population deaths lsf csq : list float) (median : float) : Collaborators float := {|
  inv_normal_cdf := fun q =>
    if PrimFloat.eqb q 0x1.f333333333333p-1%float then 0x1.f5c0331eeff84p+0%float else nan;
  fmt_g := fun x =>
    if PrimFloat.eqb x 1 then "1"
    else if PrimFloat.eqb x 0x1.e666666666666p-1%float then "0.95" else "?";
  check_nans_or_infs := check_finite;
  _preprocess_inputs := fun _ _ _ _ _ => inr v;
  _additive_estimate := fun _ _ contribution variance _ =>
    _ ← contribution population deaths;
    _ ← variance population deaths;
    mret (lsf, csq);
  median_survival_times := fun _ _ => inr median;
  _update_docstrings := fun _ => inr tt
|}.

Definition row (t : float) (rem obs cen ent risk : Q) : event_row float :=
  {| event_at := t; removed := rem; observed := obs; censored := cen;
     entrance := ent; at_risk := risk |}.

(** Two subjects under left truncation: one enters at 0 and dies at 1, the
    other enters at 2 and dies at 3. Between 1 and 2 nobody is at risk. *)
Definition truncated_table : list (event_row float) :=
  [row 0 0 0 0 1 1; row 1 1 1 0 0 1; row 2 0 0 0 1 1; row 3 1 1 0 0 1].

Definition truncated_lib : Collaborators float :=
  collaborators_on
    ([1; 3], [1; 1], [0; 1; 2; 3], Some [0; 2], truncated_table)%float
    [1; 1; 0; 1]%float [0; 1; 0; 1]%float
    [0; neg_infinity; neg_infinity; neg_infinity]%float [0; 0; 0; 0]%float
    infinity.

(** One subject that enters and dies at time 5: a table of one row whose
    net population is zero. *)
Definition single_row_table : list (event_row float) := [row 5 1 1 0 1 1].

Definition single_row_lib : Collaborators float :=
  collaborators_on
    ([5], [1], [5], Some [5], single_row_table)%float
    [1]%float [1]%float [neg_infinity]%float [0]%float 5%float.

(** A fitter with the default [alpha = 0.05] that has been fitted before,
    on the durations 5, 6, 6, 2, 4. *)
Definition fitted_before : world float :=
  {| attrs := <["median_" := PFloat 5%float]>
                (<["durations" := PArray [5; 6; 6; 2; 4]%float]>
                  (<["alpha" := PFloat 0x1.999999999999ap-5%float]> ∅));
     warned := [];
     proc := fresh_process |}.

Definition truncated_call : world float * (exn + unit) :=
  fit (FE := table_elem) (lib := truncated_lib)
      [1; 3]%float None None (Some [0; 2]%float) "KM_estimate" None false None None
      fitted_before.

Definition single_row_call : world float * (exn + unit) :=
  fit (FE := table_elem) (lib := single_row_lib)
      [5]%float None None (Some [5]%float) "KM_estimate" None false None None
      fitted_before.

(** The same subject, with a single custom label for the band. *)
Definition one_label_call : world float * (exn + unit) :=
  fit (FE := table_elem) (lib := single_row_lib)
      [5]%float None None (Some [5]%float) "KM_estimate" None false (Some ["only"]) None
      fitted_before.

(** The same subject with the weight one half: the counts of the row are
    halved. *)
Definition half_weight_lib : Collaborators float :=
  collaborators_on
    ([5], [1], [5], Some [5], [row 5 (1 # 2) (1 # 2) 0 (1 # 2) (1 # 2)])%float
    [0.5]%float [0.5]%float [neg_infinity]%float [0]%float 5%float.

(** The same weight in a Python list. *)
Definition list_weight_call : world float * (exn + unit) :=
  fit (FE := table_elem) (lib := half_weight_lib)
      [5]%float None None (Some [5]%float) "KM_estimate" None false None
      (Some (WList [0.5]%float)) fitted_before.


(** The reals, with the quantile function of the uniform distribution on
    [-1/2, 1/2] standing for a quantile that is positive above one half. *)
Definition real_lib : Collaborators R := {|
  inv_normal_cdf := fun q => (q - 1 / 2)%R;
  fmt_g := fun _ => "?";
  check_nans_or_infs := fun _ => inr tt;
  _preprocess_inputs := fun _ _ _ _ _ => inl (ValueError "no data");
  _additive_estimate := fun _ _ _ _ _ => mret ([], []);
  median_survival_times := fun _ _ => inr 0%R;
  _update_docstrings := fun _ => inr tt
|}.

(** A fitter over the reals holding an estimate of one half at time 1. *)
Definition band_world : world R :=
  {| attrs := <["_label" := PStr "KM_estimate"]>
                (<["_KaplanMeierFitter__estimate" :=
                     PFrame (frame_of_column "KM_estimate" [(1 / 2)%R])]>
                  (<["timeline" := PArray [1%R]]> ∅));
     warned := [];
     proc := fresh_process |}.

(** A duration that is not a number, with the weight one half. *)
Definition nan_duration_call : world float * (exn + unit) :=
  fit (FE := table_elem) (lib := single_row_lib)
      [nan]%float None None None "KM_estimate" None false None (Some (WFloat64 [0.5]%float))
      fitted_before.

(** The single subject with [alpha = 0.0] passed to [fit]. *)
Definition zero_alpha_call : world float * (exn + unit) :=
  fit (FE := table_elem) (lib := single_row_lib)
      [5]%float None None (Some [5]%float) "KM_estimate" (Some 0%float) false None None
      fitted_before.

(** The single subject with a pair of custom labels, and with the same
    label twice. *)
Definition two_labels_call (l0 l1 : string) : world float * (exn + unit) :=
  fit (FE := table_elem) (lib := single_row_lib)
      [5]%float None None (Some [5]%float) "KM_estimate" None false (Some [l0; l1]) None
      fitted_before.

(** A removal before the first entrance: the net population runs -1, 0,
    1, 0. *)
Definition negative_net_table : list (event_row float) :=
  [row 0 1 1 0 0 0; row 1 0 0 0 1 1; row 2 0 0 0 1 1; row 3 1 1 0 0 1].

(** Two subjects from the start; the net population runs 2, 1, 0, 1 and
    reaches zero in the second half only. The second table has the same
    first half and stays positive. *)
Definition late_zero_table : list (event_row float) :=
  [row 0 0 0 0 2 2; row 1 1 1 0 0 2; row 2 1 1 0 0 1; row 3 0 0 0 1 1].

Definition no_zero_table : list (event_row float) :=
  [row 0 0 0 0 2 2; row 1 1 1 0 0 2; row 2 0 0 0 1 2; row 3 1 1 0 0 2].

(** A fitter at the start of a survival curve: estimate 1 at time 0. *)
Definition start_world : world float :=
  {| attrs := <["_label" := PStr "KM_estimate"]>
                (<["_KaplanMeierFitter__estimate" :=
                     PFrame (frame_of_column "KM_estimate" [1%float])]>
                  (<["timeline" := PArray [0%float]]> ∅));
     warned := [];
     proc := fresh_process |}.

(** Collaborators of the queries: [coalesce] returns its first argument
    that is not [None], the prediction is 0 at every time asked for. *)
Definition zero_queries : Queries float := {|
  coalesce := fun a b => inr (match a with PNone => b | _ => a end);
  predict := fun _ times => inr ((fun _ => 0%float) <$> times);
  _to_array := fun times => inr times
|}.

(* ================================================================== *)
(** ** Facts about binary64 *)

Section Binary64.
Open Scope float_scope.

Lemma digits2_pos_shift52 (m : positive) :
  Zdigits2 (Zpos (4503599627370496 * m)) = (Zpos (digits2_pos m) + 52)%Z.
Proof.
  unfold Zdigits2.
  assert (Hd : forall p, digits2_pos (p~0) = Pos.succ (digits2_pos p)) by reflexivity.
  assert (Hm : forall x, (x~0 * m = (x * m)~0)%positive) by reflexivity.
  rewrite !Hm, !Hd, Pos.mul_1_l, !Pos2Z.inj_succ. lia.
Qed.

Lemma shr_1_shift52 (m : positive) :
  SpecFloat.iter_pos shr_1 52%positive (Build_shr_record (Zpos (4503599627370496 * m)) false false)
  = Build_shr_record (Zpos m) false false.
Proof. reflexivity. Qed.

(** Multiplying a valid finite number by [1.0] is exact. *)
Lemma SF64mul_one_l (s : bool) (m : positive) (e : Z) :
  valid_binary (S754_finite s m e) = true ->
  SF64mul (S754_finite false 4503599627370496 (-52)) (S754_finite s m e)
  = S754_finite s m e.
Proof.
  unfold valid_binary, SpecFloat.valid_binary, bounded, canonical_mantissa.
  intros [Hc Hb]%andb_prop. apply Z.eqb_eq in Hc.
  unfold SF64mul, SFmul, binary_round_aux. cbn [xorb].
  assert (H1 : shr_fexp prec emax (Zpos (4503599627370496 * m)) (-52 + e) loc_Exact
               = (Build_shr_record (Zpos m) false false, e)).
  { unfold shr_fexp. rewrite digits2_pos_shift52.
    replace (Z.pos (digits2_pos m) + 52 + (-52 + e))%Z
      with (Z.pos (digits2_pos m) + e)%Z by lia.
    rewrite Hc. replace (e - (-52 + e))%Z with 52%Z by lia.
    unfold shr, shr_record_of_loc. rewrite shr_1_shift52. f_equal. lia. }
  rewrite H1. cbn [shr_m loc_of_shr_record round_nearest_even].
  assert (H2 : shr_fexp prec emax (Zpos m) e loc_Exact
               = (Build_shr_record (Zpos m) false false, e)).
  { unfold shr_fexp. cbn [Zdigits2]. rewrite Hc, Z.sub_diag. reflexivity. }
  rewrite H2. cbn [shr_m]. rewrite Hb. reflexivity.
Qed.

Lemma SFeqb_finite (y : spec_float) (s : bool) (m : positive) (e : Z) :
  SFeqb y (S754_finite s m e) = true -> y = S754_finite s m e.
Proof.
  unfold SFeqb, SFcompare.
  destruct y as [sy|sy| |sy my ey]; try discriminate.
  - destruct sy, s; discriminate.
  - destruct sy; discriminate.
  - destruct sy, s; try discriminate;
      destruct (Z.compare ey e) eqn:E; try discriminate;
      apply Z.compare_eq in E; subst;
      destruct (Pos.compare_cont Eq my m) eqn:E2; try discriminate;
      apply Pos.compare_eq in E2; subst; reflexivity.
Qed.

(** The floats strictly between zero and infinity. *)
Lemma positive_finite_inv (d : float) :
  (0 <? d) = true -> (d <? infinity) = true ->
  exists m e, Prim2SF d = S754_finite false m e.
Proof.
  rewrite !FloatAxioms.ltb_spec. change (Prim2SF 0) with (S754_zero false).
  change (Prim2SF infinity) with (S754_infinity false).
  destruct (Prim2SF d) as [s|s| |s m e]; cbn; try discriminate.
  - destruct s; discriminate.
  - destruct s; try discriminate. eauto.
Qed.

Lemma eqb_positive_finite (p d : float) :
  (p =? d) = true -> (0 <? d) = true -> (d <? infinity) = true -> p = d.
Proof.
  intros Heq Hpos Hfin. destruct (positive_finite_inv d Hpos Hfin) as (m & e & Hd).
  rewrite FloatAxioms.eqb_spec, Hd in Heq. apply SFeqb_finite in Heq.
  apply FloatAxioms.Prim2SF_inj. congruence.
Qed.

Lemma sub_diag_positive_finite (d : float) :
  (0 <? d) = true -> (d <? infinity) = true -> d - d = 0.
Proof.
  intros Hpos Hfin. destruct (positive_finite_inv d Hpos Hfin) as (m & e & Hd).
  apply FloatAxioms.Prim2SF_inj. rewrite FloatAxioms.sub_spec, Hd.
  unfold SF64sub, SFsub. rewrite Z.sub_diag. reflexivity.
Qed.

Lemma mul_one_l_positive_finite (d : float) :
  (0 <? d) = true -> (d <? infinity) = true -> 1 * d = d.
Proof.
  intros Hpos Hfin. destruct (positive_finite_inv d Hpos Hfin) as (m & e & Hd).
  apply FloatAxioms.Prim2SF_inj. rewrite FloatAxioms.mul_spec, Hd.
  change (Prim2SF 1) with (S754_finite false 4503599627370496 (-52)).
  apply SF64mul_one_l. rewrite <- Hd. apply FloatAxioms.Prim2SF_valid.
Qed.

Lemma mul_zero_r_positive_finite (d : float) :
  (0 <? d) = true -> (d <? infinity) = true -> d * 0 = 0.
Proof.
  intros Hpos Hfin. destruct (positive_finite_inv d Hpos Hfin) as (m & e & Hd).
  apply FloatAxioms.Prim2SF_inj. rewrite FloatAxioms.mul_spec, Hd. reflexivity.
Qed.

Lemma div_zero_positive_finite (d : float) :
  (0 <? d) = true -> (d <? infinity) = true -> d / 0 = infinity.
Proof.
  intros Hpos Hfin. destruct (positive_finite_inv d Hpos Hfin) as (m & e & Hd).
  apply FloatAxioms.Prim2SF_inj. rewrite FloatAxioms.div_spec, Hd. reflexivity.
Qed.

Lemma neg_infinity_sub_finite (x : float) :
  is_finite x = true -> neg_infinity - x = neg_infinity.
Proof.
  unfold is_finite. intros Hx. apply FloatAxioms.Prim2SF_inj. rewrite FloatAxioms.sub_spec.
  change (Prim2SF neg_infinity) with (S754_infinity true).
  destruct (Prim2SF x); try discriminate; reflexivity.
Qed.

Lemma log_table_ieee : ieee_log log_table.
Proof.
  split; try reflexivity.
  - intros x. rewrite FloatAxioms.ltb_spec. unfold log_table.
    change (Prim2SF 0) with (S754_zero false).
    destruct (Prim2SF x) as [s|s| |s m e]; cbn; try discriminate.
    + destruct s; [reflexivity | discriminate].
    + destruct s; [reflexivity | discriminate].
  - intros x Hpos Hfin. destruct (positive_finite_inv x Hpos Hfin) as (m & e & Hx).
    unfold log_table. rewrite Hx. reflexivity.
Qed.
End Binary64.

(* ================================================================== *)
(** ** The interval-contribution functions: what they return and what
       they leave behind *)

Section ContributionFacts.
Context {F : Type} {FA : NpArith F}.

Lemma length_series_sub (a b : list F) :
  length a = length b -> length (series_sub a b) = length a.
Proof. intros Hl. unfold series_sub. rewrite length_zip_with. lia. Qed.

Lemma lookup_series_sub (a b : list F) (i : nat) (x y : F) :
  a !! i = Some x -> b !! i = Some y -> series_sub a b !! i = Some (np_sub x y).
Proof.
  intros Ha Hb. unfold series_sub. rewrite lookup_zip_with, Ha, Hb. reflexivity.
Qed.

(** With both conditions ignored [np.log] reports nothing. *)
Lemma np_log_ufunc_ignored {FE : NpElem F} (a : list F) (ps : process) :
  err_divide (np_err ps) = Ignore -> err_invalid (np_err ps) = Ignore ->
  np_log_ufunc a ps = (ps, inr (np_log <$> a)).
Proof.
  intros Hd Hi. unfold np_log_ufunc, mbind, SE_bind, np_when, np_signal, mret, SE_ret.
  destruct (existsb _ a); cbn; rewrite ?Hd; cbn;
    destruct (existsb _ a); cbn; rewrite ?Hi; reflexivity.
Qed.

Lemma additive_f_run {FE : NpElem F} (population deaths : list F) (ps : process) :
  _additive_f population deaths ps
  = ({| np_err := seterr_state (Some Ignore) None None (Some Ignore) (np_err ps);
        np_events := np_events ps |},
     inr (series_sub (np_log <$> series_sub population deaths) (np_log <$> population))).
Proof.
  unfold _additive_f, mbind, SE_bind at 1. cbn [np_seterr].
  unfold SE_bind at 1. rewrite np_log_ufunc_ignored by reflexivity.
  unfold SE_bind at 1. rewrite np_log_ufunc_ignored by reflexivity.
  reflexivity.
Qed.

Lemma additive_var_run {FI : NpInf F} (population deaths : list F) (ps : process) :
  _additive_var population deaths ps
  = ({| np_err := seterr_state (Some Ignore) None None None (np_err ps);
        np_events := np_events ps |},
     inr (series_replace [np_inf] np_zero
            (series_div (scalar_mul np_one deaths)
                        (series_mul population (series_sub population deaths))))).
Proof. reflexivity. Qed.

Lemma seterr_state_fixed (divide invalid : option np_errmode) (st : np_errstate) :
  seterr_state divide None None invalid st = st <->
  default (err_divide st) divide = err_divide st /\
  default (err_invalid st) invalid = err_invalid st.
Proof.
  destruct st as [d o u i]. unfold seterr_state. cbn. split.
  - intros [= -> ->]. split; reflexivity.
  - intros [-> ->]. reflexivity.
Qed.

(** C9, as the code has it: each contribution function sets the
    process-wide error mode (division by zero to "ignore", and for the
    log-survival increment the invalid operation too) and returns without
    putting the earlier setting back; overflow and underflow are not
    touched. The mode after the call is the mode before it exactly when the
    conditions the function sets were already ignored. *)
Theorem contributions_leave_error_mode_set {FE : NpElem F} {FI : NpInf F}
    (population deaths : list F) (ps : process) :
  np_err (_additive_f population deaths ps).1
    = seterr_state (Some Ignore) None None (Some Ignore) (np_err ps) /\
  np_err (_additive_var population deaths ps).1
    = seterr_state (Some Ignore) None None None (np_err ps) /\
  (np_err (_additive_f population deaths ps).1 = np_err ps <->
     err_divide (np_err ps) = Ignore /\ err_invalid (np_err ps) = Ignore) /\
  (np_err (_additive_var population deaths ps).1 = np_err ps <->
     err_divide (np_err ps) = Ignore).
Proof.
  rewrite additive_f_run, additive_var_run. cbn [fst np_err].
  split; [reflexivity|]. split; [reflexivity|].
  rewrite !seterr_state_fixed. cbn. split; split; intros; intuition congruence.
Qed.
End ContributionFacts.

(* ================================================================== *)
(** ** The contribution functions on binary64 *)

Section ContributionsBinary64.
Open Scope float_scope.

Lemma replaced_never_infinity (raw : float) :
  (if raw =? infinity then 0 else raw) <> infinity.
Proof.
  destruct (raw =? infinity) eqn:E.
  - intros Hx. apply (f_equal Prim2SF) in Hx. discriminate Hx.
  - intros ->. discriminate E.
Qed.

(** Everyone at risk dies, [p == d] with [d] positive and finite: the
    quotient is [d / +0], replaced by zero. *)
Lemma variance_all_died (p d : float) :
  (p =? d) = true -> (0 <? d) = true -> (d <? infinity) = true ->
  1 * d / (p * (p - d)) = infinity.
Proof.
  intros Heq Hpos Hfin. rewrite (eqb_positive_finite p d Heq Hpos Hfin).
  rewrite sub_diag_positive_finite, mul_one_l_positive_finite,
    mul_zero_r_positive_finite by assumption.
  apply div_zero_positive_finite; assumption.
Qed.

(** C2, as the code has it: the variance increment is [1.0 * d / (p * (p - d))]
    at every index, with positive infinity (and nothing else) replaced by
    zero. It is never positive infinity, and where everyone at risk died
    ([p == d], [d] positive and finite) it is exactly zero. *)
Theorem additive_var_greenwood (population deaths : list float) (ps : process) :
  length population = length deaths ->
  exists out,
    (_additive_var population deaths ps).2 = inr out /\
    length out = length population /\
    forall i p d, population !! i = Some p -> deaths !! i = Some d ->
      exists x, out !! i = Some x /\
        x = (if 1 * d / (p * (p - d)) =? infinity then 0 else 1 * d / (p * (p - d))) /\
        x <> infinity /\
        ((p =? d) = true -> (0 <? d) = true -> (d <? infinity) = true -> x = 0).
Proof.
  intros Hlen. rewrite additive_var_run. eexists. split; [reflexivity|]. split.
  - unfold series_replace, series_div, series_mul, scalar_mul, series_sub.
    rewrite length_fmap, !length_zip_with, length_fmap. lia.
  - intros i p d Hp Hd.
    unfold series_replace, series_div, series_mul, scalar_mul, series_sub.
    rewrite list_lookup_fmap, !lookup_zip_with, list_lookup_fmap, Hp, Hd. cbn.
    rewrite orb_false_r. eexists. split; [reflexivity|]. split; [reflexivity|].
    split; [apply replaced_never_infinity|].
    intros Heq Hpos Hfin. rewrite (variance_all_died p d Heq Hpos Hfin). reflexivity.
Qed.

(** Instance of C2's theorem: three at risk, three deaths. *)
Lemma additive_var_greenwood_witness :
  exists out,
    (_additive_var [3] [3] fresh_process).2 = inr out /\
    length out = length [3] /\
    forall i p d, [3] !! i = Some p -> [3] !! i = Some d ->
      exists x, out !! i = Some x /\
        x = (if 1 * d / (p * (p - d)) =? infinity then 0 else 1 * d / (p * (p - d))) /\
        x <> infinity /\
        ((p =? d) = true -> (0 <? d) = true -> (d <? infinity) = true -> x = 0).
Proof. apply (additive_var_greenwood [3] [3] fresh_process). reflexivity. Defined.

(** C2 fails where nobody is at risk and nobody dies: [p * (p - d)] is
    zero, the quotient is [0 / 0], not-a-number, and it is not replaced. *)
Lemma additive_var_zero_over_zero :
  (_additive_var [0] [0] fresh_process).2 = inr [nan] /\
  (0 * (0 - 0) =? 0) = true /\
  is_finite nan = false.
Proof. repeat split. Qed.

(** With deaths but nobody at risk the denominator is [0 * -1 = -0], the
    quotient negative infinity, and it is not replaced either. *)
Remark additive_var_deaths_without_risk :
  (_additive_var [0] [1] fresh_process).2 = inr [neg_infinity] /\
  (0 * (0 - 1) =? 0) = true.
Proof. repeat split. Qed.

Section Log.
Variables flog fexp : float -> float.
Hypothesis flog_ieee : ieee_log flog.

Let FE : NpElem float := float_elem flog fexp.

(** Everyone at risk dies: [log(0) - log(p)]. *)
Lemma log_increment_all_died (p d : float) :
  (p =? d) = true -> (0 <? p) = true -> (p <? infinity) = true ->
  flog (p - d) - flog p = neg_infinity.
Proof using flog_ieee.
  intros Heq Hpos Hfin.
  destruct (positive_finite_inv p Hpos Hfin) as (m & e & Hp).
  assert (Hd : Prim2SF d = S754_finite false m e).
  { rewrite FloatAxioms.eqb_spec, Hp in Heq. revert Heq. unfold SFeqb, SFcompare.
    destruct (Prim2SF d) as [s|s| |s m' e']; try discriminate.
    - destruct s; discriminate.
    - destruct s; try discriminate.
      destruct (Z.compare e e') eqn:E; try discriminate.
      apply Z.compare_eq in E. subst e'.
      destruct (Pos.compare_cont Eq m m') eqn:E2; try discriminate.
      apply Pos.compare_eq in E2. subst m'. reflexivity. }
  assert (p = d) as <- by (apply FloatAxioms.Prim2SF_inj; congruence).
  rewrite sub_diag_positive_finite by assumption.
  rewrite (log_pos_zero flog flog_ieee).
  apply neg_infinity_sub_finite, (log_finite flog flog_ieee); assumption.
Qed.

(** Nobody at risk, nobody dies: [log(0) - log(0)]. *)
Lemma log_increment_nobody : flog (0 - 0) - flog 0 = nan.
Proof using flog_ieee.
  change (0 - 0) with 0. rewrite (log_pos_zero flog flog_ieee). reflexivity.
Qed.

(** C3, as the code has it: the function returns [log(p - d) - log(p)]
    at every index, whatever error mode the process is in it raises
    nothing and reports nothing, and where everyone at risk dies
    ([p == d], [p] positive and finite) the value is negative infinity. *)
Theorem additive_f_log_increment (population deaths : list float) (ps : process) :
  length population = length deaths ->
  exists out,
    _additive_f (FE := FE) population deaths ps
      = ({| np_err := seterr_state (Some Ignore) None None (Some Ignore) (np_err ps);
            np_events := np_events ps |}, inr out) /\
    length out = length population /\
    forall i p d, population !! i = Some p -> deaths !! i = Some d ->
      exists x, out !! i = Some x /\
        x = flog (p - d) - flog p /\
        ((p =? d) = true -> (0 <? p) = true -> (p <? infinity) = true ->
         x = neg_infinity).
Proof using flog_ieee.
  intros Hlen. rewrite additive_f_run. eexists. split; [reflexivity|]. split.
  - unfold series_sub. rewrite length_zip_with, !length_fmap, length_zip_with. lia.
  - intros i p d Hp Hd. unfold series_sub.
    rewrite lookup_zip_with, !list_lookup_fmap, lookup_zip_with, Hp, Hd. cbn.
    eexists. split; [reflexivity|]. split; [reflexivity|].
    apply log_increment_all_died.
Qed.
End Log.

(** Instance of C3's theorem: three at risk, three deaths, a process in
    the start-up error mode. *)
Lemma additive_f_log_increment_witness :
  ieee_log log_table /\
  exists out,
    _additive_f (FE := float_elem log_table exp_table) [3] [3] fresh_process
      = ({| np_err := seterr_state (Some Ignore) None None (Some Ignore)
                        (np_err fresh_process);
            np_events := np_events fresh_process |}, inr out) /\
    length out = length [3] /\
    forall i p d, [3] !! i = Some p -> [3] !! i = Some d ->
      exists x, out !! i = Some x /\
        x = log_table (p - d) - log_table p /\
        ((p =? d) = true -> (0 <? p) = true -> (p <? infinity) = true ->
         x = neg_infinity).
Proof.
  split; [exact log_table_ieee|].
  apply (additive_f_log_increment log_table exp_table log_table_ieee [3] [3] fresh_process).
  reflexivity.
Defined.

(** C3 fails where nobody is at risk and nobody dies: [p == d] holds and
    the increment is [log(0) - log(0)], not-a-number. *)
Lemma additive_f_zero_zero :
  ieee_log log_table /\
  (_additive_f (FE := float_elem log_table exp_table) [0] [0] fresh_process).2
    = inr [nan] /\
  (0 =? 0) = true /\
  is_finite nan = false /\ (nan =? neg_infinity) = false.
Proof. split; [exact log_table_ieee|]. repeat split. Qed.

(** C9 fails on a process in the start-up mode: after either function has
    returned, division by zero is ignored process-wide. *)
Lemma error_mode_not_restored :
  err_divide (np_err (_additive_var [3] [1] fresh_process).1) = Ignore /\
  err_divide (np_err
    (_additive_f (FE := float_elem log_table exp_table) [3] [1] fresh_process).1) = Ignore /\
  err_invalid (np_err
    (_additive_f (FE := float_elem log_table exp_table) [3] [1] fresh_process).1) = Ignore /\
  err_divide (np_err fresh_process) = Warn /\
  err_invalid (np_err fresh_process) = Warn.
Proof. repeat split. Qed.
End ContributionsBinary64.

(* ================================================================== *)
(** ** Facts about the degeneracy check *)

Section DegeneracyFacts.
Local Open Scope Q_scope.

Lemma Qle_bool_false (a b : Q) : Qle_bool a b = false -> b < a.
Proof.
  intros Hf. apply Qnot_le_lt. intros Hle. apply Qle_bool_iff in Hle. congruence.
Qed.

Lemma q_min_le_l (a b : Q) : q_min a b <= a.
Proof.
  unfold q_min. destruct (Qle_bool a b) eqn:E.
  - apply Qle_refl.
  - apply Qlt_le_weak, Qle_bool_false, E.
Qed.

Lemma length_cumsum_from (acc : Q) (l : list Q) : length (cumsum_from acc l) = length l.
Proof. revert acc. induction l as [|x l IH]; intros acc; cbn; [|rewrite IH]; reflexivity. Qed.

Lemma length_cumsum (l : list Q) : length (cumsum l) = length l.
Proof. destruct l; cbn; [|rewrite length_cumsum_from]; reflexivity. Qed.

(** Where [argmin_from] lands: on the running best when nothing later is
    strictly smaller, otherwise on the first occurrence of the minimum. *)
Lemma argmin_from_spec (l : list Q) (best_i : nat) (best : Q) (i : nat) :
  let j := argmin_from best_i best i l in
  let m := fold_left q_min l best in
  (j = best_i /\ m == best /\ Forall (fun x => best <= x) l) \/
  (exists k x, j = (i + k)%nat /\ l !! k = Some x /\ x == m /\ m < best /\
               Forall (fun y => m < y) (take k l) /\ Forall (fun y => m <= y) l).
Proof.
  revert best_i best i. induction l as [|x l IH]; intros best_i best i; cbn.
  - left. split; [reflexivity|]. split; [reflexivity|constructor].
  - destruct (Qle_bool best x) eqn:E.
    + replace (q_min best x) with best by (unfold q_min; rewrite E; reflexivity).
      apply Qle_bool_iff in E.
      destruct (IH best_i best (S i)) as [(Hj & Hm & Hall)|(k & y & Hj & Hk & Hy & Hlt & Hbefore & Hall)].
      * left. split; [exact Hj|]. split; [exact Hm|]. constructor; assumption.
      * right. exists (S k), y. split; [rewrite Hj; lia|]. split; [exact Hk|].
        split; [exact Hy|]. split; [exact Hlt|]. split.
        -- cbn. constructor; [|exact Hbefore]. eapply Qlt_le_trans; eassumption.
        -- constructor; [|exact Hall]. apply Qlt_le_weak. eapply Qlt_le_trans; eassumption.
    + replace (q_min best x) with x by (unfold q_min; rewrite E; reflexivity).
      apply Qle_bool_false in E.
      destruct (IH i x (S i)) as [(Hj & Hm & Hall)|(k & y & Hj & Hk & Hy & Hlt & Hbefore & Hall)].
      * right. exists 0%nat, x. split; [rewrite Hj; lia|]. split; [reflexivity|].
        split; [symmetry; exact Hm|]. split; [rewrite Hm; exact E|]. split; [constructor|].
        constructor; [rewrite Hm; apply Qle_refl|].
        eapply Forall_impl; [exact Hall|]. intros z Hz. cbn in Hz. rewrite Hm. exact Hz.
      * right. exists (S k), y. split; [rewrite Hj; lia|]. split; [exact Hk|].
        split; [exact Hy|]. split; [eapply Qlt_trans; eassumption|]. split.
        -- cbn. constructor; [exact Hlt|exact Hbefore].
        -- constructor; [apply Qlt_le_weak; exact Hlt|exact Hall].
Qed.

(** [argmin] of a Series whose minimum is zero is the position of its
    first zero. *)
Lemma argmin_first_zero (l : list Q) :
  min_is_zero l = true ->
  exists j x, argmin l = Some j /\ l !! j = Some x /\ Qeq_bool x 0 = true /\
              Forall (fun y => Qeq_bool y 0 = false) (take j l).
Proof.
  unfold min_is_zero, series_min, argmin. destruct l as [|v l]; [discriminate|].
  intros Hz. apply Qeq_bool_iff in Hz.
  destruct (argmin_from_spec l 0 v 1) as [(Hj & Hm & Hall)|(k & y & Hj & Hk & Hy & Hlt & Hbefore & Hall)].
  - exists 0%nat, v. split; [f_equal; exact Hj|]. split; [reflexivity|]. split.
    + apply Qeq_bool_iff. rewrite <- Hm. exact Hz.
    + constructor.
  - exists (S k), y. split; [f_equal; rewrite Hj; reflexivity|]. split; [exact Hk|]. split.
    + apply Qeq_bool_iff. rewrite Hy. exact Hz.
    + assert (Hne : forall z, fold_left q_min l v < z -> Qeq_bool z 0 = false).
      { intros z Hlt'. destruct (Qeq_bool z 0) eqn:Ez; [|reflexivity].
        apply Qeq_bool_iff in Ez. rewrite Ez, Hz in Hlt'.
        exfalso. exact (Qlt_irrefl _ Hlt'). }
      cbn. constructor; [apply Hne, Hlt|].
      eapply Forall_impl; [exact Hbefore|]. intros z Hz'. apply Hne, Hz'.
Qed.

Lemma find_first (A : Type) (P : A -> bool) (s : list A) (j : nat) (a : A) :
  s !! j = Some a -> P a = true -> Forall (fun b => P b = false) (take j s) ->
  find P s = Some a.
Proof.
  revert j. induction s as [|b s IH]; intros j Hj Ha Hbefore; [discriminate|].
  destruct j as [|j]; cbn in *.
  - injection Hj as ->. rewrite Ha. reflexivity.
  - apply Forall_cons in Hbefore as [Hb Hbefore]. rewrite Hb. eauto.
Qed.

(** The label [idxmin] returns when the minimum is zero. *)
Lemma idxmin_first_zero {F} (s : list (F * Q)) :
  min_is_zero (s.*2) = true ->
  exists ix, idxmin s = Some ix /\ first_zero s = Some ix.
Proof.
  intros Hz. destruct (argmin_first_zero _ Hz) as (j & x & Hj & Hx & Hx0 & Hbefore).
  rewrite list_lookup_fmap in Hx. destruct (s !! j) as [[t v]|] eqn:Hs; [|discriminate].
  cbn in Hx. injection Hx as ->.
  exists t. split.
  - unfold idxmin. rewrite Hj. cbn [mbind option_bind]. rewrite Hs. done.
  - unfold first_zero.
    rewrite (find_first _ (fun tv : F * Q => Qeq_bool tv.2 0) s j (t, x) Hs Hx0); [done|].
    rewrite <- fmap_take in Hbefore. apply Forall_fmap in Hbefore. exact Hbefore.
Qed.

(** *** The running net population in the words of the specification *)

Lemma cumsum_from_sub (a b : list Q) (x y : Q) (acc : Q) :
  length a = length b -> acc == x - y ->
  Forall2 Qeq (cumsum_from acc (zip_with Qminus a b))
              (zip_with Qminus (cumsum_from x a) (cumsum_from y b)).
Proof.
  revert b x y acc. induction a as [|u a IH]; intros [|v b] x y acc Hlen Hacc;
    try discriminate; cbn; constructor.
  - rewrite Hacc. ring.
  - apply IH; [cbn in Hlen; lia|]. rewrite Hacc. ring.
Qed.

Lemma cumsum_sub (a b : list Q) :
  length a = length b ->
  Forall2 Qeq (cumsum (zip_with Qminus a b)) (zip_with Qminus (cumsum a) (cumsum b)).
Proof.
  destruct a as [|u a], b as [|v b]; intros Hlen; try discriminate; cbn; constructor.
  - reflexivity.
  - apply cumsum_from_sub; [cbn in Hlen; lia|reflexivity].
Qed.

Lemma q_min_proper (a a' b b' : Q) : a == a' -> b == b' -> q_min a b == q_min a' b'.
Proof.
  intros Ha Hb. unfold q_min.
  destruct (Qle_bool a b) eqn:E, (Qle_bool a' b') eqn:E'; try assumption.
  - apply Qle_bool_iff in E. apply Qle_bool_false in E'. rewrite Ha, Hb in E.
    exfalso. exact (Qlt_irrefl _ (Qlt_le_trans _ _ _ E' E)).
  - apply Qle_bool_iff in E'. apply Qle_bool_false in E. rewrite <- Ha, <- Hb in E'.
    exfalso. exact (Qlt_irrefl _ (Qlt_le_trans _ _ _ E E')).
Qed.

Lemma fold_q_min_proper (l l' : list Q) (x x' : Q) :
  Forall2 Qeq l l' -> x == x' -> fold_left q_min l x == fold_left q_min l' x'.
Proof.
  intros Hl. revert x x'. induction Hl as [|y y' l l' Hy Hl IH]; intros x x' Hx; cbn.
  - exact Hx.
  - apply IH, q_min_proper; assumption.
Qed.

Lemma min_is_zero_proper (l l' : list Q) :
  Forall2 Qeq l l' -> min_is_zero l = min_is_zero l'.
Proof.
  intros Hl. unfold min_is_zero, series_min. destruct Hl as [|x x' l l' Hx Hl]; [reflexivity|].
  pose proof (fold_q_min_proper l l' x x' Hl Hx) as Hm.
  destruct (Qeq_bool (fold_left q_min l x) 0) eqn:E, (Qeq_bool (fold_left q_min l' x') 0) eqn:E';
    try reflexivity.
  - apply Qeq_bool_iff in E. rewrite Hm in E. apply Qeq_bool_iff in E. congruence.
  - apply Qeq_bool_iff in E'. rewrite <- Hm in E'. apply Qeq_bool_iff in E'. congruence.
Qed.

Lemma net_population_values {F} (event_table : list (event_row F)) :
  (net_population event_table).*2
  = cumsum ((fun r => entrance r - removed r) <$> event_table).
Proof.
  unfold net_population. rewrite snd_zip; [reflexivity|].
  rewrite length_cumsum, !length_fmap. lia.
Qed.

(** The code accumulates the differences; the specification subtracts
    the accumulated columns. The check cannot tell them apart. *)
Lemma degenerate_cumulative_net {F} (event_table : list (event_row F)) :
  degenerate event_table
  = min_is_zero (take (length event_table / 2) (cumulative_net event_table)).
Proof.
  unfold degenerate, cumulative_net. rewrite fmap_take, net_population_values.
  apply min_is_zero_proper. apply Forall2_take.
  replace ((fun r : event_row F => entrance r - removed r) <$> event_table)
    with (zip_with Qminus (entrance <$> event_table) (removed <$> event_table)).
  - apply cumsum_sub. rewrite !length_fmap. reflexivity.
  - rewrite zip_with_fmap_l, zip_with_fmap_r, zip_with_diag. reflexivity.
Qed.
End DegeneracyFacts.

(* ================================================================== *)
(** ** Reasoning about a method: weakest preconditions *)

Section WpRules.
Context {S : Type}.
Implicit Types (E : exn -> S -> Prop) (s : S).

Lemma wp_bind {A B} (m : SE S A) (f : A -> SE S B) (Q : B -> S -> Prop) E s :
  wp m (fun a s' => wp (f a) Q E s') E s -> wp (m ≫= f) Q E s.
Proof.
  unfold wp, mbind, SE_bind. destruct (m s) as [s' [e|a]]; auto.
Qed.

Lemma wp_ret {A} (a : A) (Q : A -> S -> Prop) E s : Q a s -> wp (mret a) Q E s.
Proof. auto. Qed.

Lemma wp_raise {A} (e : exn) (Q : A -> S -> Prop) E s : E e s -> wp (raise e) Q E s.
Proof. auto. Qed.

Lemma wp_mono {A} (m : SE S A) (Q Q' : A -> S -> Prop) E E' s :
  wp m Q E s -> (forall a s', Q a s' -> Q' a s') -> (forall e s', E e s' -> E' e s') ->
  wp m Q' E' s.
Proof. unfold wp. destruct (m s) as [s' [e|a]]; auto. Qed.
End WpRules.

Section WpFitter.
Context {F : Type} {FA : NpArith F} {FE : NpElem F} {FI : NpInf F}.
Context {lib : Collaborators F}.
Implicit Types (E : exn -> world F -> Prop) (w : world F).

Lemma wp_setattr name v (Q : unit -> world F -> Prop) E w :
  Q tt (set_attr name v w) -> wp (self_setattr name v) Q E w.
Proof. auto. Qed.

Lemma wp_getattr name (Q : pyval F -> world F -> Prop) E w :
  match attrs w !! name with
  | Some v => Q v w
  | None => E (AttributeError name) w
  end -> wp (self_getattr name) Q E w.
Proof. unfold wp, self_getattr. destruct (attrs w !! name); auto. Qed.

Lemma wp_of_option {A} e (o : option A) (Q : A -> world F -> Prop) E w :
  match o with Some a => Q a w | None => E e w end -> wp (of_option e o) Q E w.
Proof. destruct o; auto. Qed.

Lemma wp_get {A} name (cast : pyval F -> option A) (Q : A -> world F -> Prop) E w :
  match attrs w !! name with
  | Some v => match cast v with Some a => Q a w | None => E (TypeError name) w end
  | None => E (AttributeError name) w
  end -> wp (self_get name cast) Q E w.
Proof.
  intros Hq. apply wp_bind, wp_getattr. destruct (attrs w !! name); [|assumption].
  apply wp_of_option. assumption.
Qed.

Lemma wp_warn wn (Q : unit -> world F -> Prop) E w :
  Q tt (add_warning wn w) -> wp (warnings_warn wn) Q E w.
Proof. auto. Qed.

Lemma wp_call {A} callee (r : exn + A) (Q : A -> world F -> Prop) E w :
  match r with inl e => E (Raised callee e) w | inr a => Q a w end ->
  wp (call callee r) Q E w.
Proof. destruct r; auto. Qed.

Lemma wp_check_values (a : list F) (Q : unit -> world F -> Prop) E w :
  match check_nans_or_infs a with
  | inl e => E (Raised "check_nans_or_infs" e) w
  | inr u => Q u w
  end -> wp (_check_values a) Q E w.
Proof. apply wp_call. Qed.

Lemma wp_call_on_self {A} callee (f : gmap string (pyval F) -> exn + A)
    (Q : A -> world F -> Prop) E w :
  match f (attrs w) with inl e => E (Raised callee e) w | inr a => Q a w end ->
  wp (call_on_self callee f) Q E w.
Proof. unfold wp, call_on_self, call. destruct (f (attrs w)); auto. Qed.

Lemma wp_external {A} callee (m : NP A) (Q : A -> world F -> Prop) E w :
  (forall p r, m (proc w) = (p, r) ->
     match r with
     | inl e => E (Raised callee e) (set_proc p w)
     | inr a => Q a (set_proc p w)
     end) ->
  wp (in_process (external callee m)) Q E w.
Proof.
  intros Hq. unfold wp, in_process, external.
  specialize (Hq (m (proc w)).1 (m (proc w)).2).
  destruct (m (proc w)) as [p [e|a]]; apply Hq; reflexivity.
Qed.

(** The three optional steps at the head of [fit], each with a single
    continuation. *)
Lemma wp_weights_check (weights : option weights_arg) (Q : unit -> world F -> Prop) E w :
  (has_astype weights = false -> E (AttributeError "astype") w) ->
  (has_astype weights = true -> Q tt (after_weights_check weights w)) ->
  wp (match weights with
      | Some ws =>
          test ← of_option (AttributeError "astype") (weights_test ws);
          if (test : bool)
          then warnings_warn (StatisticalWarning weights_warning_text)
          else mret tt
      | None => mret tt
      end) Q E w.
Proof.
  unfold after_weights_check. intros He Hq.
  destruct weights as [[a|a|l]|]; cbn in He, Hq.
  - specialize (Hq eq_refl). unfold wp, weights_test, of_option, mbind, SE_bind. cbn.
    destruct (any_non_integer a); exact Hq.
  - exact (Hq eq_refl).
  - exact (He eq_refl).
  - exact (Hq eq_refl).
Qed.

Lemma wp_check_optional (event_observed : option (list F))
    (Q : unit -> world F -> Prop) E w :
  (forall a e, event_observed = Some a -> check_nans_or_infs a = inl e ->
     E (Raised "check_nans_or_infs" e) w) ->
  Q tt w ->
  wp (match event_observed with
      | Some a => _check_values a
      | None => mret tt
      end) Q E w.
Proof.
  intros He Hq. destruct event_observed as [a|]; [|assumption].
  apply wp_check_values. destruct (check_nans_or_infs a) as [e|[]] eqn:Hc; eauto.
Qed.

Lemma wp_alpha_or_default (alpha : option F) (Q : pyval F -> world F -> Prop) E w :
  match effective_alpha alpha (attrs w) with
  | Some v => Q v w
  | None => E (AttributeError "alpha") w
  end -> wp (alpha_or_default alpha) Q E w.
Proof.
  unfold effective_alpha, alpha_or_default.
  destruct alpha as [a|]; [destruct (np_eqb a np_zero)|]; try apply wp_getattr; auto.
Qed.


Lemma attrs_after_weights_check weights w :
  attrs (after_weights_check weights w) = attrs w.
Proof. unfold after_weights_check. destruct (weights ≫= weights_test) as [[]|]; reflexivity. Qed.

Lemma proc_after_weights_check weights w :
  proc (after_weights_check weights w) = proc w.
Proof. unfold after_weights_check. destruct (weights ≫= weights_test) as [[]|]; reflexivity. Qed.

Lemma proc_set_attr name v w : proc (set_attr name v w) = proc w.
Proof. reflexivity. Qed.
Lemma warned_set_attr name v w : warned (set_attr name v w) = warned w.
Proof. reflexivity. Qed.
Lemma warned_set_proc p w : warned (set_proc p w) = warned w.
Proof. reflexivity. Qed.

Lemma effective_alpha_insert_ne (alpha : option F) k v (m : gmap string (pyval F)) :
  k <> "alpha" -> effective_alpha alpha (<[k := v]> m) = effective_alpha alpha m.
Proof.
  intros Hk. unfold effective_alpha. rewrite lookup_insert_ne by exact Hk. reflexivity.
Qed.

Lemma wp_outcome {A} (m : SE (world F) A) (Q : A -> world F -> Prop) E w :
  wp m Q E w ->
  match (m w).2 with
  | inr a => Q a (m w).1
  | inl e => E e (m w).1
  end.
Proof. unfold wp. destruct (m w) as [w' [e|a]]; auto. Qed.

(** Attribute lookups through the updates. *)
Lemma attrs_set_attr name v w : attrs (set_attr name v w) = <[name := v]> (attrs w).
Proof. reflexivity. Qed.
Lemma attrs_set_proc p w : attrs (set_proc p w) = attrs w.
Proof. reflexivity. Qed.
Lemma attrs_add_warning wn w : attrs (add_warning wn w) = attrs w.
Proof. reflexivity. Qed.
End WpFitter.

Create Rewrite HintDb fitter_state.
#[export] Hint Rewrite @attrs_set_attr @attrs_set_proc @attrs_add_warning
  @attrs_after_weights_check @proc_set_attr @proc_after_weights_check
  @warned_set_attr @warned_set_proc : fitter_state.

Ltac wp_proc_in H := autorewrite with fitter_state in H.

Ltac wp_attrs := autorewrite with fitter_state.

(** Two attribute names differ. *)
Ltac wp_neq :=
  solve [ discriminate
        | match goal with
          | |- context [estimate_name_of ?b] => destruct b; discriminate
          end ].

Ltac wp_lookup :=
  wp_attrs;
  repeat first [ rewrite lookup_insert_eq | rewrite lookup_insert_ne by wp_neq ].

Ltac wp_case x :=
  first [ match goal with H : x = _ |- _ => rewrite H end | destruct x eqn:? ].

Ltac wp_simpl :=
  cbn beta iota delta [as_table as_str as_array as_frame as_float estimate_name_of negb
                       default_ci_labels].

(** One step of symbolic execution; a scrutinee that is not determined is
    taken apart. *)
Ltac wp_step_core :=
  lazymatch goal with
  | |- wp (mbind _ _) _ _ _ => apply wp_bind
  | |- wp (mret _) _ _ _ => apply wp_ret
  | |- wp (raise _) _ _ _ => apply wp_raise
  | |- wp (self_setattr _ _) _ _ _ => apply wp_setattr
  | |- wp (self_getattr _) _ _ _ => apply wp_getattr; wp_lookup
  | |- wp (self_get _ _) _ _ _ => apply wp_get; wp_lookup
  | |- wp (warnings_warn _) _ _ _ => apply wp_warn
  | |- wp (call _ _) _ _ _ => apply wp_call
  | |- wp (call_on_self _ _) _ _ _ => apply wp_call_on_self
  | |- wp (in_process (external _ _)) _ _ _ =>
      let p := fresh "p" in let r := fresh "r" in let Hrun := fresh "Hrun" in
      apply wp_external; intros p r Hrun; wp_proc_in Hrun;
      try match goal with
          | H : ?lhs = _ |- _ =>
              lazymatch type of Hrun with lhs = _ => rewrite H in Hrun end;
              injection Hrun as <- <-
          end
  | |- wp (of_option _ _) _ _ _ => apply wp_of_option
  | |- wp (_check_values _) _ _ _ => apply wp_check_values
  | |- wp (alpha_or_default _) _ _ _ =>
      apply wp_alpha_or_default; wp_attrs;
      rewrite ?effective_alpha_insert_ne by wp_neq
  | |- wp (match ?weights with
           | Some ws => mbind _ (of_option _ (weights_test ws))
           | None => _
           end) _ _ _ =>
      let Hw := fresh "Hastype" in
      apply wp_weights_check; intros Hw;
      [try match goal with H : has_astype weights = true |- _ => congruence end|]
  | |- wp (match ?eo with Some a => _check_values a | None => _ end) _ _ _ =>
      apply wp_check_optional; [intros ? ? ? ? |]
  | |- wp (degeneracy_check _) _ _ _ => unfold degeneracy_check; cbv zeta
  | |- wp (band_column _ _ _) _ _ _ => unfold band_column
  | |- wp (fit _ _ _ _ _ _ _ _ _) _ _ _ => unfold fit; cbv zeta
  | |- wp (match ?x with _ => _ end) _ _ _ => wp_case x
  | |- match ?x with _ => _ end => wp_case x
  end.

Section BoundsFrame.
Context {F : Type} {FA : NpArith F} {FE : NpElem F} {lib : Collaborators F}.
Implicit Types (E : exn -> world F -> Prop) (w : world F).

(** [_bounds] reads the instance and leaves it as it is. *)
Lemma wp_bounds_frame (cumulative_sq_ : list F) (a : F) (ci_labels : option (list string)) w :
  wp (_bounds cumulative_sq_ a ci_labels)
     (fun _ w' => w' = w) (fun e w' => w' = w /\ raised_by_bounds e) w.
Proof.
  unfold _bounds. cbv zeta. repeat (wp_step_core; wp_simpl); done.
Qed.

Lemma wp_bounds (cumulative_sq_ : list F) (a : F) (ci_labels : option (list string))
    (Q : DataFrame F -> world F -> Prop) E w :
  (forall df, (_bounds cumulative_sq_ a ci_labels w).2 = inr df -> Q df w) ->
  (forall e, (_bounds cumulative_sq_ a ci_labels w).2 = inl e ->
             raised_by_bounds e -> E e w) ->
  wp (_bounds cumulative_sq_ a ci_labels) Q E w.
Proof.
  intros Hq He. pose proof (wp_bounds_frame cumulative_sq_ a ci_labels w) as Hf.
  unfold wp in *. destruct (_bounds cumulative_sq_ a ci_labels w) as [w' [e|df]].
  - destruct Hf as [-> Hr]. apply He; [reflexivity|exact Hr].
  - subst w'. apply Hq. reflexivity.
Qed.
End BoundsFrame.

(** [_bounds] taken as a whole, by what can leave it. *)
Ltac wp_step :=
  first [ wp_step_core
        | lazymatch goal with
          | |- wp (_bounds _ _ _) _ _ _ =>
              let Hb := fresh "Hbounds" in let He := fresh "Hraised" in
              apply wp_bounds; [intros ? Hb | intros ? Hb He]
          end ].

(** [_bounds] entered. *)
Ltac wp_step_deep :=
  first [ wp_step_core
        | lazymatch goal with
          | |- wp (_bounds _ _ _) _ _ _ => unfold _bounds; cbv zeta
          end ].

Ltac wp_run := repeat (wp_step; wp_simpl).

Ltac wp_run_deep := repeat (wp_step_deep; wp_simpl).

(* ================================================================== *)
(** ** Runs that differ only in the warnings issued *)

Section SimRules.
Context {F : Type} {FA : NpArith F} {FE : NpElem F} {FI : NpInf F}.
Context {lib : Collaborators F}.












End SimRules.


Section FitSim.
Context {F : Type} {FA : NpArith F} {FE : NpElem F} {FI : NpInf F}.
Context {lib : Collaborators F}.

End FitSim.

(* ================================================================== *)
(** ** Facts about [fit] *)

(** An exception that left [_bounds] against a goal about another one. *)
Ltac bounds_leaf :=
  match goal with
  | Hr : raised_by_bounds ?e |- _ =>
      first [ subst e | idtac ];
      repeat match goal with H : _ = _ |- _ => subst end;
      cbn in Hr; first [ contradiction | discriminate Hr ]
  end.

Section FitFacts.
Context {F : Type} {FA : NpArith F} {FE : NpElem F} {FI : NpInf F}.
Context {lib : Collaborators F}.
Variables (durations : list F) (event_observed timeline entry : option (list F)).
Variables (label : string) (alpha : option F) (left_censorship : bool).
Variables (ci_labels : option (list string)) (weights : option weights_arg).
Variable w : world F.

Local Abbreviation the_fit :=
  (fit durations event_observed timeline entry label alpha left_censorship
       ci_labels weights).

(** A leaf of the execution that contradicts what validation returned. *)
Ltac validated_leaf Hobs :=
  match goal with
  | Ha : event_observed = Some ?a, He : check_nans_or_infs ?a = inl _ |- _ =>
      rewrite (Hobs a Ha) in He; discriminate He
  end.

Ltac not_StatError_leaf :=
  first [ done | intros ? ->; bounds_leaf ].

(** Without entry times [fit] has no way to raise [StatError]. *)
Lemma wp_fit_without_entry :
  entry = None ->
  wp the_fit (fun _ _ => True) (fun e _ => forall msg, e <> StatError msg) w.
Proof. intros ->. wp_run; not_StatError_leaf. Qed.

(** Once control has reached the test on the entry times and the table is
    degenerate, [fit] raises [StatError] with the label [idxmin] finds. *)
Lemma wp_fit_degenerate v av p r :
  reaches_check durations event_observed timeline entry alpha left_censorship
                weights w v av p r ->
  entry <> None -> degenerate v.2 = true ->
  wp the_fit (fun _ _ => False)
     (fun e w' =>
        exists ix,
          idxmin (take (length v.2 / 2) (net_population v.2)) = Some ix /\
          e = StatError (degenerate_text (fmt_g ix))) w.
Proof.
  intros [[Hdur Hobs] Hweights Htab Halpha Hscaf] Hentry Hdeg.
  destruct v as [[[[d ev] tl] en] tab]. cbn [fst snd] in *.
  destruct entry as [e0|]; [clear Hentry|done].
  pose proof (idxmin_first_zero _ Hdeg) as (ix & Hix & _).
  unfold degenerate in Hdeg.
  wp_run; first [validated_leaf Hobs | eauto].
Qed.

(** Once control has reached the test and the test passes (or is not
    made), nothing further raises [StatError]. *)
Lemma wp_fit_not_degenerate v av p r :
  reaches_check durations event_observed timeline entry alpha left_censorship
                weights w v av p r ->
  entry = None \/ degenerate v.2 = false ->
  wp the_fit (fun _ _ => True) (fun e _ => forall msg, e <> StatError msg) w.
Proof.
  intros [[Hdur Hobs] Hweights Htab Halpha Hscaf] Hnd.
  destruct v as [[[[d ev] tl] en] tab]. cbn [fst snd] in *.
  destruct entry as [e0|].
  - destruct Hnd as [|Hdeg]; [done|]. unfold degenerate in Hdeg.
    wp_run; not_StatError_leaf.
  - wp_run; not_StatError_leaf.
Qed.

(** A table of one row passes the test: its first half is empty. *)
Lemma wp_fit_single_row d ev tl en row :
  _preprocess_inputs durations event_observed timeline entry weights
  = inr (d, ev, tl, en, [row]) ->
  wp the_fit (fun _ _ => True) (fun e _ => forall msg, e <> StatError msg) w.
Proof.
  intros Htab.
  assert (Hdeg : degenerate [row] = false) by reflexivity. unfold degenerate in Hdeg.
  wp_run; not_StatError_leaf.
Qed.

(** Where a failed call leaves the attributes. *)
Lemma wp_fit_failure_state :
  wp the_fit (fun _ _ => True)
     (fun e w' =>
        (forall e0, e = Raised "check_nans_or_infs" e0 \/
                    e = Raised "_preprocess_inputs" e0 -> attrs w' = attrs w) /\
        (forall msg, e = StatError msg ->
           exists v,
             _preprocess_inputs durations event_observed timeline entry weights = inr v /\
             attrs w' = table_stage_writes v label (attrs w))) w.
Proof.
  wp_run; try done; wp_attrs; (split; [intros e0 He|intros msg He]).
  all: try (destruct He as [He|He]).
  all: first [ reflexivity | discriminate He | bounds_leaf
             | eexists; split; reflexivity ].
Qed.

(** The attribute under the name the flag does not choose is never
    written. *)
Lemma wp_fit_other_name :
  let other := estimate_name_of (negb left_censorship) in
  wp the_fit (fun _ w' => attrs w' !! other = attrs w !! other)
             (fun _ w' => attrs w' !! other = attrs w !! other) w.
Proof.
  destruct left_censorship; cbn [negb estimate_name_of];
    wp_run; wp_lookup; reflexivity.
Qed.

(** A call that returns has stored, under the name the flag chooses, the
    exponential of what the scaffold accumulated. *)
Lemma wp_fit_estimate :
  wp the_fit
     (fun _ w' =>
        exists tab tl p lsf csq,
          _additive_estimate tab tl _additive_f _additive_var left_censorship (proc w)
          = (p, inr (lsf, csq)) /\
          attrs w' !! estimate_name_of left_censorship
          = Some (PFrame (frame_of_column label (np_exp <$> lsf))) /\
          attrs w' !! "_estimate_name" = Some (PStr (estimate_name_of left_censorship)))
     (fun _ _ => True) w.
Proof.
  destruct left_censorship; cbn [negb estimate_name_of];
    wp_run; try done;
    (do 5 eexists; split; [eassumption|]; split; wp_lookup; reflexivity).
Qed.


(** *** The confidence-interval labels *)

Lemma default_ci_labels_distinct (a : F) (l0 l1 : string) :
  default_ci_labels label a = [l0; l1] -> l0 <> l1.
Proof.
  unfold default_ci_labels. intros [= <- <-]. clear.
  induction label as [|c s IH]; cbn; [discriminate|].
  intros [= Heq]. exact (IH Heq).
Qed.

Lemma frame_setitem_inr (df df' : DataFrame F) (c : string) (vals : list F) :
  frame_setitem df c vals = inr df' ->
  df' = {| df_index := df_index df; df_columns := columns_set c vals (df_columns df) |}.
Proof. unfold frame_setitem. destruct (decide _); [intros [= <-]; reflexivity|discriminate]. Qed.

(** Custom labels that are not a pair: the call cannot return. *)
Lemma wp_fit_bad_labels l :
  ci_labels = Some l -> length l <> 2 ->
  wp the_fit (fun _ _ => False) (fun _ _ => True) w.
Proof.
  intros -> Hlen. wp_run_deep; try done.
  all: exfalso; apply Hlen; reflexivity.
Qed.

(** ... and once control has reached [_bounds] it is the assertion on the
    labels that fails. *)
Lemma wp_fit_bad_labels_assert v a p r l :
  reaches_check durations event_observed timeline entry alpha left_censorship
                weights w v (PFloat a) p r ->
  entry = None \/ degenerate v.2 = false ->
  ci_labels = Some l -> length l <> 2 ->
  wp the_fit (fun _ _ => False) (fun e _ => e = AssertionError ci_labels_text) w.
Proof.
  intros [[Hdur Hobs] Hweights Htab Halpha Hscaf] Hnd -> Hlen.
  destruct v as [[[[d ev] tl] en] tab]. cbn [fst snd] in *.
  destruct entry as [e0|].
  - destruct Hnd as [|Hdeg]; [done|]. unfold degenerate in Hdeg.
    wp_run_deep; first [validated_leaf Hobs | done | exfalso; apply Hlen; reflexivity].
  - wp_run_deep; first [validated_leaf Hobs | done | exfalso; apply Hlen; reflexivity].
Qed.

(** Without custom labels the band's columns carry the default names. *)
Lemma wp_fit_default_labels :
  ci_labels = None ->
  wp the_fit
     (fun _ w' =>
        exists a ci,
          effective_alpha alpha (attrs w) = Some (PFloat a) /\
          attrs w' !! "confidence_interval_" = Some (PFrame ci) /\
          (df_columns ci).*1 = default_ci_labels label a)
     (fun _ _ => True) w.
Proof.
  intros ->. wp_run_deep; try done.
  all: repeat match goal with
              | H : frame_setitem _ _ _ = inr _ |- _ =>
                  apply frame_setitem_inr in H; subst
              | H : as_float ?p = Some _ |- _ =>
                  destruct p; try discriminate H; cbn in H; injection H as ->
              end.
  all: do 2 eexists; split; [reflexivity|]; split; [wp_lookup; reflexivity|].
  all: cbn [df_columns frame_of_index columns_set].
  all: destruct (decide _) as [Heq|_]; [|reflexivity].
  all: exfalso; revert Heq; eapply default_ci_labels_distinct; reflexivity.
Qed.

(** *** The claims about [fit] *)

Lemma table_stage_writes_result_field v (m : gmap string (pyval F)) k :
  k ∈ result_fields -> table_stage_writes v label m !! k = m !! k.
Proof.
  destruct v as [[[[d ev] tl] en] tab]. unfold result_fields, table_stage_writes.
  intros Hk. repeat (apply elem_of_cons in Hk as [->|Hk]);
    [..|by apply elem_of_nil in Hk];
    repeat (rewrite lookup_insert_ne by discriminate); reflexivity.
Qed.

(** C1: once [fit] has validated its input, built the event table, found
    a value for [alpha] and the scaffold has returned, it raises the
    degeneracy [StatError] exactly when entry times were given and the
    running net population over the first half of the rows has minimum
    zero; the message carries the first time at which that net population
    is zero; without entry times the error is never raised. The check
    reads the same on cumulative entrances minus cumulative removals. *)
Theorem degeneracy_error_iff v av p r :
  reaches_check durations event_observed timeline entry alpha left_censorship
                weights w v av p r ->
  let head := take (length v.2 / 2) (net_population v.2) in
  (entry = None -> forall msg, (the_fit w).2 <> inl (StatError msg)) /\
  (entry <> None ->
     ((exists msg, (the_fit w).2 = inl (StatError msg)) <-> min_is_zero (head.*2) = true) /\
     (min_is_zero (head.*2) = true ->
        exists ix, first_zero head = Some ix /\
                   (the_fit w).2 = inl (StatError (degenerate_text (fmt_g ix))))) /\
  min_is_zero (head.*2) = min_is_zero (take (length v.2 / 2) (cumulative_net v.2)).
Proof.
  intros Hreach head.
  assert (Hfire : entry <> None -> min_is_zero (head.*2) = true ->
            exists ix, first_zero head = Some ix /\
                       (the_fit w).2 = inl (StatError (degenerate_text (fmt_g ix)))).
  { intros Hentry Hdeg.
    pose proof (wp_outcome _ _ _ _ (wp_fit_degenerate v av p r Hreach Hentry Hdeg)) as Ho.
    destruct (idxmin_first_zero head Hdeg) as (ix & Hix & Hfirst).
    destruct ((the_fit w).2) as [e|[]]; [|contradiction].
    destruct Ho as (ix' & Hix' & ->). fold head in Hix'.
    exists ix. split; [exact Hfirst|]. congruence. }
  split; [|split].
  - intros Hentry msg Hres.
    pose proof (wp_outcome _ _ _ _ (wp_fit_without_entry Hentry)) as Ho.
    rewrite Hres in Ho. exact (Ho msg eq_refl).
  - intros Hentry. split; [split|exact (Hfire Hentry)].
    + intros [msg Hres]. destruct (min_is_zero (head.*2)) eqn:Hdeg; [reflexivity|].
      pose proof (wp_outcome _ _ _ _
                    (wp_fit_not_degenerate v av p r Hreach (or_intror Hdeg))) as Ho.
      rewrite Hres in Ho. destruct (Ho msg eq_refl).
    + intros Hdeg. destruct (Hfire Hentry Hdeg) as (ix & _ & Hres). eauto.
  - apply degenerate_cumulative_net.
Qed.

(** C10: when the event table has a single row the first half of the rows
    is empty, the check finds no minimum equal to zero whatever that row
    holds, and [fit] does not raise the degeneracy [StatError]. *)
Theorem single_row_never_degenerate d ev tl en row :
  _preprocess_inputs durations event_observed timeline entry weights
  = inr (d, ev, tl, en, [row]) ->
  take (length [row] / 2) (net_population [row]) = [] /\
  min_is_zero ((take (length [row] / 2) (net_population [row])).*2) = false /\
  forall msg, (the_fit w).2 <> inl (StatError msg).
Proof.
  intros Htab. split; [reflexivity|]. split; [reflexivity|].
  intros msg Hres.
  pose proof (wp_outcome _ _ _ _ (wp_fit_single_row d ev tl en row Htab)) as Ho.
  rewrite Hres in Ho. exact (Ho msg eq_refl).
Qed.

(** C5, as the code has it: a call that fails in validation or while the
    event table is built leaves every attribute as it was; a call aborted
    by the degeneracy check has already stored the new durations, event
    indicators, timeline, entry times, event table and label, while the
    point estimate, the confidence band, the median and the cumulative
    variance hold what they held before the call. *)
Theorem failed_fit_state e :
  (the_fit w).2 = inl e ->
  (forall e0, e = Raised "check_nans_or_infs" e0 \/ e = Raised "_preprocess_inputs" e0 ->
     attrs (the_fit w).1 = attrs w) /\
  (forall msg, e = StatError msg ->
     exists v,
       _preprocess_inputs durations event_observed timeline entry weights = inr v /\
       attrs (the_fit w).1 = table_stage_writes v label (attrs w) /\
       forall k, k ∈ result_fields -> attrs (the_fit w).1 !! k = attrs w !! k).
Proof.
  intros Hres. pose proof (wp_outcome _ _ _ _ wp_fit_failure_state) as Ho.
  rewrite Hres in Ho. destruct Ho as [Hearly Hstat]. split; [exact Hearly|].
  intros msg He. destruct (Hstat msg He) as (v & Htab & Hattrs).
  exists v. split; [exact Htab|]. split; [exact Hattrs|].
  intros k Hk. rewrite Hattrs. apply table_stage_writes_result_field, Hk.
Qed.

(** C6: custom confidence-interval labels that are not exactly two make
    [fit] fail, and once control has reached [_bounds] the failure is the
    assertion on the labels; without custom labels a call that returns has
    named the two columns of the band [<label>_upper_<1-alpha>] and
    [<label>_lower_<1-alpha>], with [1 - alpha] and not [1 - alpha/2]. *)
Theorem ci_labels_checked :
  (forall l, ci_labels = Some l -> length l <> 2 -> exists e, (the_fit w).2 = inl e) /\
  (forall l v a p r,
     ci_labels = Some l -> length l <> 2 ->
     reaches_check durations event_observed timeline entry alpha left_censorship
                   weights w v (PFloat a) p r ->
     entry = None \/ degenerate v.2 = false ->
     (the_fit w).2 = inl (AssertionError ci_labels_text)) /\
  (ci_labels = None -> (the_fit w).2 = inr tt ->
     exists a ci,
       effective_alpha alpha (attrs w) = Some (PFloat a) /\
       attrs (the_fit w).1 !! "confidence_interval_" = Some (PFrame ci) /\
       (df_columns ci).*1 = [label +:+ "_upper_" +:+ fmt_g (np_sub np_one a);
                             label +:+ "_lower_" +:+ fmt_g (np_sub np_one a)]).
Proof.
  split; [|split].
  - intros l Hl Hlen. pose proof (wp_outcome _ _ _ _ (wp_fit_bad_labels l Hl Hlen)) as Ho.
    destruct ((the_fit w).2) as [e|[]]; [eauto|contradiction].
  - intros l v a p r Hl Hlen Hreach Hnd.
    pose proof (wp_outcome _ _ _ _
                  (wp_fit_bad_labels_assert v a p r l Hreach Hnd Hl Hlen)) as Ho.
    destruct ((the_fit w).2) as [e|[]]; [congruence|contradiction].
  - intros Hl Hres. pose proof (wp_outcome _ _ _ _ (wp_fit_default_labels Hl)) as Ho.
    rewrite Hres in Ho. exact Ho.
Qed.

(** C7: the point estimate goes to the attribute the left-censorship flag
    chooses, [survival_function_] when it is false and
    [cumulative_density_] when it is true; either way it is the
    exponential of what the scaffold accumulated, and the attribute of the
    other name is not assigned by the call. *)
Theorem estimate_attribute_follows_flag :
  estimate_name_of false = "survival_function_" /\
  estimate_name_of true = "cumulative_density_" /\
  attrs (the_fit w).1 !! estimate_name_of (negb left_censorship)
    = attrs w !! estimate_name_of (negb left_censorship) /\
  ((the_fit w).2 = inr tt ->
     exists tab tl p lsf csq,
       _additive_estimate tab tl _additive_f _additive_var left_censorship (proc w)
       = (p, inr (lsf, csq)) /\
       attrs (the_fit w).1 !! estimate_name_of left_censorship
       = Some (PFrame (frame_of_column label (np_exp <$> lsf))) /\
       attrs (the_fit w).1 !! "_estimate_name"
       = Some (PStr (estimate_name_of left_censorship))).
Proof.
  split; [reflexivity|]. split; [reflexivity|]. split.
  - pose proof (wp_outcome _ _ _ _ wp_fit_other_name) as Ho.
    destruct ((the_fit w).2); exact Ho.
  - intros Hres. pose proof (wp_outcome _ _ _ _ wp_fit_estimate) as Ho.
    rewrite Hres in Ho. exact Ho.
Qed.
End FitFacts.

(* ================================================================== *)
(** ** The weights *)

Section WeightsFacts.
Context {F : Type} {FA : NpArith F} {FE : NpElem F} {FI : NpInf F}.
Context {lib : Collaborators F}.

(** C8, where the code departs from it: weights passed as a Python list,
    which the docstring of [fit] admits, have no [astype]. Once validation
    has passed, [fit] raises [AttributeError] on them whatever their values
    are: no warning is issued, nothing is stored and the estimation does
    not take place. *)
Theorem weights_list_has_no_astype
    (durations : list F) (event_observed timeline entry : option (list F))
    (label : string) (alpha : option F) (left_censorship : bool)
    (ci_labels : option (list string)) (l : list float) (w : world F) :
  validated durations event_observed ->
  fit durations event_observed timeline entry label alpha left_censorship
      ci_labels (Some (WList l)) w
  = (w, inl (AttributeError "astype")).
Proof.
  intros [Hdur Hobs]. unfold fit, _check_values, call, mbind, SE_bind.
  rewrite Hdur. destruct event_observed as [a|].
  - rewrite (Hobs a eq_refl). reflexivity.
  - reflexivity.
Qed.

End WeightsFacts.

(* ================================================================== *)
(** ** The Greenwood band over the reals *)

Section GreenwoodBand.
Context {lib : Collaborators R}.
Local Open Scope R_scope.

Lemma exp_le_1 (u : R) : u <= 0 -> exp u <= 1.
Proof.
  intros [Hu| ->]; [|rewrite exp_0; lra].
  left. rewrite <- exp_0. apply exp_increasing, Hu.
Qed.

Lemma exp_ge_1 (u : R) : 0 <= u -> 1 <= exp u.
Proof.
  intros [Hu| <-]; [|rewrite exp_0; lra].
  left. rewrite <- exp_0. apply exp_increasing, Hu.
Qed.

Lemma exp_le (a b : R) : a <= b -> exp a <= exp b.
Proof. intros [Hab| ->]; [left; apply exp_increasing, Hab|lra]. Qed.

(** In log(-log S) space the two bounds stay in the unit interval and
    bracket the estimate. *)
Lemma greenwood_bracket (z S V : R) :
  0 <= z -> 0 < S < 1 -> 0 <= V ->
  (0 <= greenwood_lower z (ln S) V <= S) /\ (S <= greenwood_upper z (ln S) V <= 1).
Proof.
  intros Hz [HS0 HS1] HV. unfold greenwood_lower, greenwood_upper. cbn.
  assert (Hv : ln S < 0) by (rewrite <- ln_1; apply ln_increasing; lra).
  set (v := ln S) in *.
  assert (Hsq : 0 <= R_sqrt.sqrt V) by apply sqrt_pos.
  assert (Hu : z * R_sqrt.sqrt V / v <= 0).
  { assert (Hinv : / v < 0) by apply Rinv_lt_0_compat, Hv.
    assert (Hnum : 0 <= z * R_sqrt.sqrt V) by (apply Rmult_le_pos; assumption).
    unfold Rdiv. nra. }
  set (u := z * R_sqrt.sqrt V / v) in *.
  assert (HS : exp v = S) by (apply exp_ln, HS0).
  assert (Hlo : exp (ln (- v) - u) = - v * exp (- u)).
  { unfold Rminus. rewrite exp_plus, exp_ln by lra. reflexivity. }
  assert (Hup : exp (ln (- v) + u) = - v * exp u).
  { rewrite exp_plus, exp_ln by lra. reflexivity. }
  rewrite Hlo, Hup.
  pose proof (exp_pos u) as Hpu. pose proof (exp_le_1 u Hu) as Hu1.
  pose proof (exp_ge_1 (- u) ltac:(lra)) as Hu2.
  repeat split.
  - left. apply exp_pos.
  - rewrite <- HS. apply exp_le. nra.
  - rewrite <- HS. apply exp_le. nra.
  - apply exp_le_1. nra.
Qed.

Lemma lookup_broadcast_aligned (g : R -> R -> R) (a b : list R) :
  length a = length b -> broadcast2 g a b = Some (zip_with g a b).
Proof. intros Hl. unfold broadcast2. destruct (decide _); [reflexivity|contradiction]. Qed.

Lemma default_labels_differ (label : string) (s : string) :
  label +:+ "_upper_" +:+ s <> label +:+ "_lower_" +:+ s.
Proof.
  induction label as [|c l IH]; cbn; [discriminate|]. intros [= Heq]. exact (IH Heq).
Qed.

(** The quantile used for a two-sided band is positive. *)
Hypothesis inv_normal_cdf_pos : forall q : R, 1 / 2 < q < 1 -> 0 < inv_normal_cdf q.

(** C4: for an estimate strictly between 0 and 1, a non-negative
    cumulative variance and a significance level strictly between 0 and 1,
    [_bounds] takes [z] at [1 - alpha/2], takes the logarithm of the stored
    estimate, and returns the upper and the lower column of the claim's
    formulas under the default names; each pair of bounds lies in the unit
    interval and brackets the estimate. *)
Theorem bounds_greenwood_band (w : world R) (tl Ss Vs : list R)
    (est_label label : string) (alpha : R) :
  attrs w !! "timeline" = Some (PArray tl) ->
  attrs w !! "_KaplanMeierFitter__estimate" = Some (PFrame (frame_of_column est_label Ss)) ->
  attrs w !! "_label" = Some (PStr label) ->
  length Ss = length tl -> length Vs = length tl ->
  Forall (fun S => 0 < S < 1) Ss -> Forall (fun V => 0 <= V) Vs ->
  0 < alpha < 1 ->
  let z := inv_normal_cdf (1 - alpha / 2) in
  exists upper lower,
    _bounds Vs alpha None w
    = (w, inr {| df_index := Some tl;
                 df_columns := [(label +:+ "_upper_" +:+ fmt_g (1 - alpha), upper);
                                (label +:+ "_lower_" +:+ fmt_g (1 - alpha), lower)] |}) /\
    length upper = length tl /\ length lower = length tl /\
    forall i S V, Ss !! i = Some S -> Vs !! i = Some V ->
      exists u l, upper !! i = Some u /\ lower !! i = Some l /\
        u = exp (- exp (ln (- ln S) + z * R_sqrt.sqrt V / ln S)) /\
        l = exp (- exp (ln (- ln S) - z * R_sqrt.sqrt V / ln S)) /\
        0 <= l <= S /\ S <= u <= 1.
Proof using inv_normal_cdf_pos.
  intros Htl Hest Hlabel HlenS HlenV HS HV Halpha z.
  exists (zip_with (greenwood_upper z) (ln <$> Ss) Vs),
         (zip_with (greenwood_lower z) (ln <$> Ss) Vs).
  assert (Hlen : length (ln <$> Ss) = length Vs) by (rewrite length_fmap; lia).
  split; [|split; [|split]].
  - enough (Hwp : wp (_bounds Vs alpha None)
              (fun df w' => w' = w /\ df = {| df_index := Some tl;
                 df_columns := [(label +:+ "_upper_" +:+ fmt_g (1 - alpha),
                                 zip_with (greenwood_upper z) (ln <$> Ss) Vs);
                                (label +:+ "_lower_" +:+ fmt_g (1 - alpha),
                                 zip_with (greenwood_lower z) (ln <$> Ss) Vs)] |})
              (fun _ _ => False) w).
    { unfold wp in Hwp. destruct (_bounds Vs alpha None w) as [w' [e|df]]; [contradiction|].
      destruct Hwp as [-> ->]. reflexivity. }
    wp_run_deep.
    all: repeat match goal with
                | H : fmap _ <$> frame_values _ = _ |- _ =>
                    cbn in H; first [discriminate H | injection H as <-]
                | H : broadcast2 _ _ _ = _ |- _ =>
                    rewrite lookup_broadcast_aligned in H by exact Hlen;
                    first [discriminate H | injection H as <-]
                | H : frame_setitem _ _ _ = inr _ |- _ =>
                    apply frame_setitem_inr in H; subst
                | H : frame_setitem _ _ _ = inl _ |- _ =>
                    exfalso; revert H; unfold frame_setitem;
                    cbn [frame_nrows frame_of_index df_index df_columns];
                    rewrite length_zip_with, length_fmap;
                    destruct (decide _) as [_|Hne]; [discriminate|];
                    intros _; apply Hne; lia
                end.
    split; [reflexivity|]. cbn [frame_of_index df_index df_columns columns_set].
    destruct (decide _) as [Heq|_]; [exfalso; exact (default_labels_differ _ _ Heq)|].
    reflexivity.
  - rewrite length_zip_with, length_fmap. lia.
  - rewrite length_zip_with, length_fmap. lia.
  - intros i S V HSi HVi.
    exists (greenwood_upper z (ln S) V), (greenwood_lower z (ln S) V).
    rewrite !lookup_zip_with, !list_lookup_fmap, HSi, HVi. cbn [fmap option_fmap option_map mbind option_bind].
    split; [reflexivity|]. split; [reflexivity|]. split; [reflexivity|]. split; [reflexivity|].
    assert (Hz : 0 <= z).
    { left. apply inv_normal_cdf_pos. lra. }
    apply greenwood_bracket; [exact Hz| |].
    + exact (proj1 (Forall_lookup _ _) HS i S HSi).
    + exact (proj1 (Forall_lookup _ _) HV i V HVi).
Qed.
End GreenwoodBand.

(* ================================================================== *)
(** ** The worked calls as instances of the theorems *)

Section WorkedCalls.
Open Scope float_scope.

Lemma truncated_call_reaches_check :
  reaches_check (FE := table_elem) (lib := truncated_lib)
    [1; 3] None None (Some [0; 2]) None false None fitted_before
    ([1; 3], [1; 1], [0; 1; 2; 3], Some [0; 2], truncated_table)
    (PFloat 0x1.999999999999ap-5)
    {| np_err := {| err_divide := Ignore; err_over := Warn;
                    err_under := Ignore; err_invalid := Ignore |};
       np_events := [] |}
    ([0; neg_infinity; neg_infinity; neg_infinity], [0; 0; 0; 0]).
Proof. split; [split; [reflexivity|discriminate]|reflexivity..]. Defined.

(** C5 fails on the truncated data: the call is aborted by the degeneracy
    check, and the durations of the earlier fit are gone. *)
Lemma failed_fit_overwrites_durations :
  truncated_call.2 = inl (StatError (degenerate_text "1")) /\
  attrs fitted_before !! "durations" = Some (PArray [5; 6; 6; 2; 4]) /\
  attrs truncated_call.1 !! "durations" = Some (PArray [1; 3]).
Proof. vm_compute. repeat split. Qed.

(** Instance of C1's theorem: the truncated data raise the error, with
    the time 1 in the message. *)
Lemma degeneracy_error_iff_witness :
  truncated_call.2 = inl (StatError (degenerate_text "1")).
Proof.
  destruct (degeneracy_error_iff (FE := table_elem) (lib := truncated_lib)
              [1; 3] None None (Some [0; 2]) "KM_estimate" None false None None
              fitted_before _ _ _ _ truncated_call_reaches_check)
    as (_ & Hsome & _).
  destruct (Hsome ltac:(discriminate)) as [_ Hmsg].
  destruct (Hmsg eq_refl) as (ix & Hix & Hres).
  vm_compute in Hix. injection Hix as <-. exact Hres.
Defined.

(** Instance of C5's theorem: after the aborted call the median of the
    earlier fit is still there. *)
Lemma failed_fit_state_witness :
  attrs truncated_call.1 !! "median_" = attrs fitted_before !! "median_".
Proof.
  assert (Hres : truncated_call.2 = inl (StatError (degenerate_text "1")))
    by (vm_compute; reflexivity).
  destruct (failed_fit_state (FE := table_elem) (lib := truncated_lib)
              [1; 3] None None (Some [0; 2]) "KM_estimate" None false None None
              fitted_before (StatError (degenerate_text "1")) Hres)
    as [_ Hstat].
  destruct (Hstat _ eq_refl) as (v & _ & _ & Hfields).
  apply Hfields. unfold result_fields. set_solver.
Defined.

(** Instance of C10's theorem: the single row has net population zero and
    the call returns. *)
Lemma single_row_never_degenerate_witness :
  (net_population single_row_table).*2 = [0%Q] /\
  take (length single_row_table / 2) (net_population single_row_table) = [] /\
  single_row_call.2 = inr tt /\
  (single_row_call.2 = inl (StatError (degenerate_text "5")) -> False).
Proof.
  split; [reflexivity|].
  destruct (single_row_never_degenerate (FE := table_elem) (lib := single_row_lib)
              [5] None None (Some [5]) "KM_estimate" None false None None
              fitted_before [5] [1] [5] (Some [5]) (row 5 1 1 0 1 1) eq_refl)
    as (Hempty & _ & Hnever).
  split; [exact Hempty|]. split; [vm_compute; reflexivity|]. apply Hnever.
Defined.

Lemma single_row_call_reaches_check :
  reaches_check (FE := table_elem) (lib := single_row_lib)
    [5] None None (Some [5]) None false None fitted_before
    ([5], [1], [5], Some [5], single_row_table)
    (PFloat 0x1.999999999999ap-5)
    {| np_err := {| err_divide := Ignore; err_over := Warn;
                    err_under := Ignore; err_invalid := Ignore |};
       np_events := [] |}
    ([neg_infinity], [0]).
Proof. split; [split; [reflexivity|discriminate]|reflexivity..]. Defined.

(** Instance of C6's theorem: a single custom label fails the assertion;
    without custom labels the columns carry the default names, with 0.95
    for [alpha = 0.05]. *)
Lemma ci_labels_checked_witness :
  one_label_call.2 = inl (AssertionError ci_labels_text) /\
  exists ci,
    attrs single_row_call.1 !! "confidence_interval_" = Some (PFrame ci) /\
    (df_columns ci).*1 = ["KM_estimate_upper_0.95"; "KM_estimate_lower_0.95"]%string.
Proof.
  split.
  - destruct (ci_labels_checked (FE := table_elem) (lib := single_row_lib)
                [5] None None (Some [5]) "KM_estimate" None false (Some ["only"%string]) None
                fitted_before) as (_ & Hassert & _).
    apply (Hassert _ _ _ _ _ eq_refl ltac:(discriminate) single_row_call_reaches_check).
    right. reflexivity.
  - destruct (ci_labels_checked (FE := table_elem) (lib := single_row_lib)
                [5] None None (Some [5]) "KM_estimate" None false None None
                fitted_before) as (_ & _ & Hdefault).
    assert (Hres : single_row_call.2 = inr tt) by (vm_compute; reflexivity).
    destruct (Hdefault eq_refl Hres) as (a & ci & Ha & Hci & Hcols).
    vm_compute in Ha. injection Ha as <-.
    exists ci. split; [exact Hci|]. rewrite Hcols. vm_compute. reflexivity.
Defined.

(** Instance of C7's theorem: without left censorship the estimate is
    stored as [survival_function_] and [cumulative_density_] stays unset. *)
Lemma estimate_attribute_follows_flag_witness :
  attrs single_row_call.1 !! "survival_function_"
    = Some (PFrame (frame_of_column "KM_estimate" [0])) /\
  attrs single_row_call.1 !! "cumulative_density_" = None.
Proof.
  destruct (estimate_attribute_follows_flag (FE := table_elem) (lib := single_row_lib)
              [5] None None (Some [5]) "KM_estimate" None false None None fitted_before)
    as (_ & _ & Hother & Hchosen).
  split.
  - assert (Hres : single_row_call.2 = inr tt) by (vm_compute; reflexivity).
    destruct (Hchosen Hres) as (tab & tl & p & lsf & csq & Hscaf & Hattr & _).
    vm_compute in Hscaf. injection Hscaf as _ <- _.
    refine (eq_trans Hattr _). vm_compute. reflexivity.
  - refine (eq_trans Hother _). reflexivity.
Defined.

(** Instance of C8's theorem: the weight one half in a Python list. *)
Lemma weights_list_has_no_astype_witness :
  list_weight_call = (fitted_before, inl (AttributeError "astype")).
Proof.
  apply (weights_list_has_no_astype (FE := table_elem) (lib := half_weight_lib)).
  split; [reflexivity|discriminate].
Defined.

(** The test on three float64 weights: one half is not a whole number;
    two is; ten to the nineteenth is a whole number that int64 cannot
    hold, the cast returns the smallest int64 and the test is true. *)
Example weights_test_values :
  weights_test (WFloat64 [0.5]) = Some true /\
  weights_test (WFloat64 [2]) = Some false /\
  trunc 1e19 = Some 10000000000000000000%Z /\
  astype_int 1e19 = int64_min /\
  weights_test (WFloat64 [1e19]) = Some true /\
  weights_test (WInt64 [3%Z]) = Some false.
Proof. vm_compute. repeat split. Qed.


(** Instance of C9's theorem: from the start-up mode, with three at risk
    and one death. *)
Lemma contributions_leave_error_mode_set_witness :
  np_err (_additive_f (FE := table_elem) [3] [1] fresh_process).1
    = {| err_divide := Ignore; err_over := Warn; err_under := Ignore; err_invalid := Ignore |} /\
  np_err (_additive_var [3] [1] fresh_process).1
    = {| err_divide := Ignore; err_over := Warn; err_under := Ignore; err_invalid := Warn |}.
Proof.
  destruct (contributions_leave_error_mode_set (FE := table_elem) [3] [1] fresh_process)
    as (Hf & Hv & _).
  split; [exact Hf|exact Hv].
Defined.
End WorkedCalls.

(** Instance of C4's theorem: an estimate of one half with no variance at
    a significance level of one half. *)
Lemma bounds_greenwood_band_witness :
  exists df, _bounds (lib := real_lib) [0%R] (1 / 2)%R None band_world = (band_world, inr df).
Proof.
  destruct (bounds_greenwood_band (lib := real_lib)
              (fun q Hq => ltac:(cbn; lra))
              band_world [1%R] [(1 / 2)%R] [0%R] "KM_estimate" "KM_estimate" (1 / 2)%R)
    as (upper & lower & Hrun & _).
  - reflexivity.
  - reflexivity.
  - reflexivity.
  - reflexivity.
  - reflexivity.
  - repeat constructor; lra.
  - repeat constructor; lra.
  - lra.
  - eexists. exact Hrun.
Defined.

(* ================================================================== *)
(** ** More about the contribution functions *)

Section MoreBinary64.
Open Scope float_scope.

(** A finite number minus itself is positive zero. *)
Lemma sub_diag_finite (x : float) : is_finite x = true -> x - x = 0.
Proof.
  unfold is_finite. intros Hx. apply FloatAxioms.Prim2SF_inj.
  rewrite FloatAxioms.sub_spec.
  destruct (Prim2SF x) as [s|s| |s m e]; try discriminate.
  - destruct s; reflexivity.
  - unfold SF64sub, SFsub. rewrite Z.sub_diag. destruct s; reflexivity.
Qed.

(** Subtracting a zero of either sign from a positive finite number is
    exact. *)
Lemma sub_zero_positive_finite (p d : float) :
  (0 <? p) = true -> (p <? infinity) = true -> (d =? 0) = true -> p - d = p.
Proof.
  intros Hpos Hfin Hd. destruct (positive_finite_inv p Hpos Hfin) as (m & e & Hp).
  apply FloatAxioms.Prim2SF_inj. rewrite FloatAxioms.sub_spec, Hp.
  rewrite FloatAxioms.eqb_spec in Hd. change (Prim2SF 0) with (S754_zero false) in Hd.
  destruct (Prim2SF d) as [s|s| |s m' e']; try discriminate; try reflexivity.
  - destruct s; discriminate.
  - destruct s; discriminate.
Qed.

(** Whatever [z] is, [z * sqrt(0) / 0] is not a number. *)
Lemma zero_variance_over_zero (z : float) : z * PrimFloat.sqrt 0 / 0 = nan.
Proof.
  change (PrimFloat.sqrt 0) with 0.
  apply FloatAxioms.Prim2SF_inj.
  rewrite FloatAxioms.div_spec, FloatAxioms.mul_spec.
  change (Prim2SF 0) with (S754_zero false). change (Prim2SF nan) with S754_nan.
  destruct (Prim2SF z) as [s|s| |s m e]; try destruct s; reflexivity.
Qed.
End MoreBinary64.

Section NoDeaths.
Open Scope float_scope.
Variables flog fexp : float -> float.
Hypothesis flog_ieee : ieee_log flog.

Let FE : NpElem float := float_elem flog fexp.

(** X1: where nobody dies ([d == 0], of either sign) and the population
    at risk is positive and finite, the log-survival increment is exactly
    zero: the interval leaves the estimate where it was. *)
Theorem additive_f_no_deaths (population deaths : list float) (ps : process) :
  exists out,
    (_additive_f (FE := FE) population deaths ps).2 = inr out /\
    forall i p d, population !! i = Some p -> deaths !! i = Some d ->
      (0 <? p) = true -> (p <? infinity) = true -> (d =? 0) = true ->
      out !! i = Some 0.
Proof using flog_ieee.
  rewrite additive_f_run. eexists. split; [reflexivity|].
  intros i p d Hp Hd Hpos Hfin Hd0. unfold series_sub.
  rewrite lookup_zip_with, !list_lookup_fmap, lookup_zip_with, Hp, Hd. cbn.
  rewrite (sub_zero_positive_finite p d) by assumption.
  rewrite sub_diag_finite; [reflexivity|].
  apply (log_finite flog flog_ieee); assumption.
Qed.
End NoDeaths.

(** Instance of X1's theorem: three at risk, no death. *)
Lemma additive_f_no_deaths_witness :
  exists out,
    (_additive_f (FE := table_elem) [3; 3]%float [0; 3]%float fresh_process).2 = inr out /\
    out !! 0%nat = Some 0%float.
Proof.
  destruct (additive_f_no_deaths log_table exp_table log_table_ieee
              [3; 3]%float [0; 3]%float fresh_process) as (out & Hrun & Hzero).
  exists out. split; [exact Hrun|].
  apply (Hzero 0%nat 3%float 0%float); reflexivity.
Defined.

Section ContributionsReal.
Local Open Scope R_scope.

(** X2: over the reals, with [0 <= d < p], the exponential of the
    log-survival increment is the conditional survival probability
    [1 - d/p], and the increment is never positive. *)
Theorem additive_f_conditional_survival (population deaths : list R) (ps : process) :
  length population = length deaths ->
  exists out,
    (_additive_f population deaths ps).2 = inr out /\
    length out = length population /\
    forall i p d, population !! i = Some p -> deaths !! i = Some d -> 0 <= d < p ->
      exists x, out !! i = Some x /\ exp x = 1 - d / p /\ x <= 0.
Proof.
  intros Hlen. rewrite additive_f_run. eexists. split; [reflexivity|]. split.
  - unfold series_sub. rewrite length_zip_with, !length_fmap, length_zip_with. lia.
  - intros i p d Hp Hd [Hd0 Hdp]. unfold series_sub.
    rewrite lookup_zip_with, !list_lookup_fmap, lookup_zip_with, Hp, Hd. cbn.
    eexists. split; [reflexivity|].
    assert (Hp0 : 0 < p) by lra. assert (Hpd : 0 < p - d) by lra.
    split.
    + unfold Rminus at 1. rewrite exp_plus, exp_Ropp, !exp_ln by assumption.
      field. lra.
    + destruct Hd0 as [Hd0| <-].
      * assert (ln (p - d) < ln p) by (apply ln_increasing; lra). lra.
      * rewrite Rminus_0_r. lra.
Qed.

(** Instance of X2's theorem: four at risk, one death. *)
Lemma additive_f_conditional_survival_witness :
  exists x, (_additive_f [4] [1] fresh_process).2 = inr [x] /\ exp x = 1 - 1 / 4.
Proof.
  destruct (additive_f_conditional_survival [4] [1] fresh_process eq_refl)
    as (out & Hrun & Hlen & Hout).
  destruct (Hout 0%nat 4 1 eq_refl eq_refl ltac:(lra)) as (x & Hx & Hexp & _).
  destruct out as [|y [|]]; try discriminate Hlen.
  cbn in Hx. injection Hx as ->. exists x. split; [exact Hrun|exact Hexp].
Defined.
End ContributionsReal.

Section ContributionsCompose.
Context {F : Type} {FA : NpArith F} {FE : NpElem F} {FI : NpInf F}.

(** X3: once the log-survival increment function has run, a further run
    of either contribution function leaves the process state as it is;
    the variance function followed by the log-survival function leaves
    what the log-survival function alone leaves; and what either function
    returns does not depend on the process state it starts from. *)
Theorem contributions_error_mode_saturates
    (population deaths population' deaths' : list F) (ps ps' : process) :
  (_additive_f population' deaths' (_additive_f population deaths ps).1).1
    = (_additive_f population deaths ps).1 /\
  (_additive_var population' deaths' (_additive_f population deaths ps).1).1
    = (_additive_f population deaths ps).1 /\
  (_additive_var population' deaths' (_additive_var population deaths ps).1).1
    = (_additive_var population deaths ps).1 /\
  (_additive_f population' deaths' (_additive_var population deaths ps).1).1
    = (_additive_f population deaths ps).1 /\
  (_additive_f population deaths ps).2 = (_additive_f population deaths ps').2 /\
  (_additive_var population deaths ps).2 = (_additive_var population deaths ps').2.
Proof.
  rewrite !additive_f_run, !additive_var_run. cbn [fst snd np_err np_events].
  repeat split.
Qed.
End ContributionsCompose.

(* ================================================================== *)
(** ** More about the degeneracy check *)

Section DegeneracyMore.
Local Open Scope Q_scope.

Lemma fold_q_min_le (l : list Q) (x : Q) :
  fold_left q_min l x <= x /\ Forall (fun y => fold_left q_min l x <= y) l.
Proof.
  revert x. induction l as [|y l IH]; intros x; cbn.
  - split; [apply Qle_refl|constructor].
  - destruct (IH (q_min x y)) as [Hm Hall]. split.
    + eapply Qle_trans; [exact Hm|apply q_min_le_l].
    + constructor; [|exact Hall]. eapply Qle_trans; [exact Hm|].
      unfold q_min. destruct (Qle_bool x y) eqn:E.
      * apply Qle_bool_iff, E.
      * apply Qle_refl.
Qed.

Lemma fold_q_min_in (l : list Q) (x : Q) :
  Exists (fun y => y == fold_left q_min l x) (x :: l).
Proof.
  revert x. induction l as [|y l IH]; intros x; cbn.
  - left. reflexivity.
  - specialize (IH (q_min x y)). apply Exists_cons in IH as [Hh|Ht].
    + unfold q_min in Hh at 1. destruct (Qle_bool x y).
      * left. exact Hh.
      * right. left. exact Hh.
    + right. right. exact Ht.
Qed.

(** The test [s.min() == 0] in terms of the elements: some value is zero
    and none is below zero. *)
Lemma min_is_zero_iff (l : list Q) :
  min_is_zero l = true <-> Exists (fun x => x == 0) l /\ Forall (fun x => 0 <= x) l.
Proof.
  unfold min_is_zero, series_min. destruct l as [|x l].
  - split; [discriminate|]. intros [H _]. inversion H.
  - rewrite Qeq_bool_iff.
    destruct (fold_q_min_le l x) as [Hx Hall]. pose proof (fold_q_min_in l x) as Hin.
    split.
    + intros Hz. split.
      * eapply Exists_impl; [exact Hin|]. intros y Hy. cbn in Hy. rewrite Hy. exact Hz.
      * constructor; [rewrite <- Hz; exact Hx|].
        eapply Forall_impl; [exact Hall|]. intros y Hy. cbn in Hy. rewrite <- Hz. exact Hy.
    + intros [Hex Hge]. apply Qle_antisym.
      * apply Exists_exists in Hex as (y & Hy & Hy0).
        assert (Hall' : Forall (fun y => fold_left q_min l x <= y) (x :: l))
          by (constructor; assumption).
        rewrite <- Hy0. exact (proj1 (Forall_forall _ _) Hall' y Hy).
      * apply Exists_exists in Hin as (y & Hy & Hym). rewrite <- Hym.
        exact (proj1 (Forall_forall _ _) Hge y Hy).
Qed.

Lemma take_cumsum_from (k : nat) (acc : Q) (l : list Q) :
  take k (cumsum_from acc l) = cumsum_from acc (take k l).
Proof.
  revert k acc. induction l as [|x l IH]; intros [|k] acc; cbn; try reflexivity.
  rewrite IH. reflexivity.
Qed.

Lemma take_cumsum (k : nat) (l : list Q) : take k (cumsum l) = cumsum (take k l).
Proof.
  destruct l as [|x l], k as [|k]; cbn; try reflexivity. rewrite take_cumsum_from. reflexivity.
Qed.

Section Check.
Context {F : Type} {lib : Collaborators F}.

Lemma take_net_population (k : nat) (t : list (event_row F)) :
  take k (net_population t) = net_population (take k t).
Proof.
  unfold net_population. rewrite zip_with_take, take_cumsum, <- !fmap_take. reflexivity.
Qed.

(** X4: the check on the entry times has two outcomes and touches
    nothing. It raises [StatError], naming the first time at which the
    net population is zero, when over the first [int(n/2)] rows some value
    of the net population is zero and none is negative; in every other
    case, also when the net population reaches zero after having been
    negative, it returns. The [ValueError] of [idxmin] on an empty Series
    cannot occur. *)
Theorem degeneracy_check_outcome (event_table : list (event_row F)) (w : world F) :
  let head := take (length event_table / 2) (net_population event_table) in
  (Exists (fun x => x == 0) (head.*2) /\ Forall (fun x => 0 <= x) (head.*2) ->
     exists ix, first_zero head = Some ix /\
       degeneracy_check event_table w
       = (w, inl (StatError (degenerate_text (fmt_g ix))))) /\
  (~ (Exists (fun x => x == 0) (head.*2) /\ Forall (fun x => 0 <= x) (head.*2)) ->
     degeneracy_check event_table w = (w, inr tt)).
Proof.
  intros head. unfold degeneracy_check. cbv zeta. fold head. split.
  - intros Hz%min_is_zero_iff. rewrite Hz.
    destruct (idxmin_first_zero head Hz) as (ix & Hix & Hfirst).
    exists ix. split; [exact Hfirst|]. rewrite Hix. reflexivity.
  - intros Hnz. destruct (min_is_zero (head.*2)) eqn:E; [|reflexivity].
    exfalso. apply Hnz, min_is_zero_iff, E.
Qed.

(** X5: the check looks at the first [int(n/2)] rows only: two event
    tables of one length that agree on those rows pass or fail it alike,
    with the same message. *)
Theorem degeneracy_check_first_half_only (t t' : list (event_row F)) (w : world F) :
  length t = length t' ->
  take (length t / 2) t = take (length t / 2) t' ->
  degeneracy_check t w = degeneracy_check t' w.
Proof.
  intros Hlen Hhead. unfold degeneracy_check. cbv zeta.
  rewrite <- Hlen, !take_net_population, Hhead. reflexivity.
Qed.
End Check.

(** Instance of X4's theorem: a net population that runs -1, 0 over the
    first half passes the check. *)
Lemma degeneracy_check_outcome_witness :
  (take 2 (net_population negative_net_table)).*2 = [-1; 0] /\
  degeneracy_check (lib := single_row_lib) negative_net_table fitted_before
  = (fitted_before, inr tt).
Proof.
  split; [reflexivity|].
  apply (degeneracy_check_outcome (lib := single_row_lib) negative_net_table fitted_before).
  intros [_ Hge]. apply Forall_cons in Hge as [Hneg _]. revert Hneg. compute. intros H.
  apply H. reflexivity.
Defined.

(** Instance of X5's theorem: a zero in the second half goes unseen. *)
Lemma degeneracy_check_first_half_only_witness :
  (net_population late_zero_table).*2 = [2; 1; 0; 1] /\
  degeneracy_check (lib := single_row_lib) late_zero_table fitted_before
  = degeneracy_check (lib := single_row_lib) no_zero_table fitted_before.
Proof.
  split; [reflexivity|].
  apply (degeneracy_check_first_half_only (lib := single_row_lib)
           late_zero_table no_zero_table fitted_before); reflexivity.
Defined.
End DegeneracyMore.

(* ================================================================== *)
(** ** More about [_bounds] *)

Section BoundsMore.
Context {F : Type} {FA : NpArith F} {FE : NpElem F} {lib : Collaborators F}.
Implicit Types (w : world F).

(** X6: [_bounds] never writes to the fitter, whether it returns or
    raises, and what it raises is a missing or ill-typed attribute, a
    shape mismatch, the assertion on the labels, or an exception of the
    column assignment. *)
Theorem bounds_leaves_fitter (cumulative_sq_ : list F) (a : F)
    (ci_labels : option (list string)) w :
  (_bounds cumulative_sq_ a ci_labels w).1 = w /\
  forall e, (_bounds cumulative_sq_ a ci_labels w).2 = inl e ->
    (exists name, e = AttributeError name \/ e = TypeError name \/ e = ValueError name) \/
    e = AssertionError ci_labels_text \/
    (exists e0, e = Raised "DataFrame.__setitem__" e0).
Proof.
  enough (Hwp : wp (_bounds cumulative_sq_ a ci_labels)
            (fun _ w' => w' = w)
            (fun e w' => w' = w /\
               ((exists name,
                   e = AttributeError name \/ e = TypeError name \/ e = ValueError name) \/
                e = AssertionError ci_labels_text \/
                (exists e0, e = Raised "DataFrame.__setitem__" e0))) w).
  { unfold wp in Hwp. destruct (_bounds cumulative_sq_ a ci_labels w) as [w' [e|df]]; cbn.
    - destruct Hwp as [-> He]. split; [reflexivity|]. intros e' [= <-]. exact He.
    - split; [exact Hwp|]. intros e' [=]. }
  unfold _bounds. cbv zeta. repeat (wp_step_core; wp_simpl); try done.
  all: split; [reflexivity|]; eauto 6.
Qed.

(** What [_bounds] returns depends on the fitter through three
    attributes only, and on the label only when no custom labels are
    given. *)
Lemma bounds_result_reads (cumulative_sq_ : list F) (a : F)
    (ci_labels : option (list string)) w w' :
  attrs w !! "timeline" = attrs w' !! "timeline" ->
  attrs w !! "_KaplanMeierFitter__estimate" = attrs w' !! "_KaplanMeierFitter__estimate" ->
  (ci_labels = None -> attrs w !! "_label" = attrs w' !! "_label") ->
  (_bounds cumulative_sq_ a ci_labels w).2 = (_bounds cumulative_sq_ a ci_labels w').2.
Proof.
  intros Htl Hest Hlabel.
  enough (Hwp : wp (_bounds cumulative_sq_ a ci_labels)
            (fun df _ => (_bounds cumulative_sq_ a ci_labels w').2 = inr df)
            (fun e _ => (_bounds cumulative_sq_ a ci_labels w').2 = inl e) w).
  { unfold wp in Hwp.
    destruct (_bounds cumulative_sq_ a ci_labels w) as [w1 [e|df]]; cbn; congruence. }
  remember (attrs w !! "timeline") as o1 eqn:E1.
  remember (attrs w !! "_KaplanMeierFitter__estimate") as o2 eqn:E2.
  symmetry in E1, E2, Htl, Hest.
  assert (Hrhs : forall x : world F * (exn + DataFrame F),
            _bounds cumulative_sq_ a ci_labels w' = x ->
            (_bounds cumulative_sq_ a ci_labels w').2 = x.2)
    by (intros x ->; reflexivity).
  destruct ci_labels as [l|].
  - clear Hlabel. unfold _bounds at 1. cbv zeta.
    repeat (wp_step_core; wp_simpl).
    all: refine (Hrhs (w', _) _).
    all: unfold _bounds, self_get, self_getattr, band_column, of_option, call, mbind, SE_bind,
           mret, SE_ret, raise; cbv zeta.
    all: rewrite ?Htl, ?Hest; wp_simpl.
    all: repeat first [ progress wp_simpl
                      | match goal with H : _ = _ |- _ => rewrite H end ].
    all: reflexivity.
  - specialize (Hlabel eq_refl).
    remember (attrs w !! "_label") as o3 eqn:E3. symmetry in E3, Hlabel.
    unfold _bounds at 1. cbv zeta.
    repeat (wp_step_core; wp_simpl).
    all: refine (Hrhs (w', _) _).
    all: unfold _bounds, self_get, self_getattr, band_column, of_option, call, mbind, SE_bind,
           mret, SE_ret, raise; cbv zeta.
    all: rewrite ?Htl, ?Hest, ?Hlabel; wp_simpl.
    all: repeat first [ progress wp_simpl
                      | match goal with H : _ = _ |- _ => rewrite H end ].
    all: reflexivity.
Qed.

(** X7: [_bounds] reads the fitter through [timeline], the private
    estimate and, when no custom labels are given, the label: on two
    fitters that agree on these it returns or raises the same. *)
Theorem bounds_reads (cumulative_sq_ : list F) (a : F)
    (ci_labels : option (list string)) w w' :
  attrs w !! "timeline" = attrs w' !! "timeline" ->
  attrs w !! "_KaplanMeierFitter__estimate" = attrs w' !! "_KaplanMeierFitter__estimate" ->
  (ci_labels = None -> attrs w !! "_label" = attrs w' !! "_label") ->
  (_bounds cumulative_sq_ a ci_labels w).2 = (_bounds cumulative_sq_ a ci_labels w').2.
Proof. apply bounds_result_reads. Qed.

Lemma frame_setitem_length (df df' : DataFrame F) (c : string) (vals : list F) :
  frame_setitem df c vals = inr df' -> length vals = frame_nrows df.
Proof. unfold frame_setitem. destruct (decide _); [intros _; assumption|discriminate]. Qed.

(** X8: a band that [_bounds] returns is indexed by the timeline; its
    columns are as long as the timeline; the first label names the upper
    bound and the second the lower bound, custom or default; and when
    the two labels are equal the second assignment replaces the first, so
    that the band has the lower bound as its only column. *)
Theorem bounds_columns (cumulative_sq_ : list F) (a : F)
    (ci_labels : option (list string)) w (df : DataFrame F) :
  (_bounds cumulative_sq_ a ci_labels w).2 = inr df ->
  let z := inv_normal_cdf (np_sub np_one (np_div a np_two)) in
  exists tl estimate est_label est l0 l1 upper lower,
    attrs w !! "timeline" = Some (PArray tl) /\
    attrs w !! "_KaplanMeierFitter__estimate" = Some (PFrame estimate) /\
    df_columns estimate = [(est_label, est)] /\
    match ci_labels with
    | Some l => l = [l0; l1]
    | None => exists label, attrs w !! "_label" = Some (PStr label) /\
                            [l0; l1] = default_ci_labels label a
    end /\
    broadcast2 (greenwood_upper z) (np_log <$> est) cumulative_sq_ = Some upper /\
    broadcast2 (greenwood_lower z) (np_log <$> est) cumulative_sq_ = Some lower /\
    length upper = length tl /\ length lower = length tl /\
    df = {| df_index := Some tl;
            df_columns := if decide (l0 = l1) then [(l1, lower)]
                          else [(l0, upper); (l1, lower)] |}.
Proof.
  intros Hres z.
  enough (Hwp : wp (_bounds cumulative_sq_ a ci_labels)
    (fun df _ => exists tl estimate est_label est l0 l1 upper lower,
    attrs w !! "timeline" = Some (PArray tl) /\
    attrs w !! "_KaplanMeierFitter__estimate" = Some (PFrame estimate) /\
    df_columns estimate = [(est_label, est)] /\
    match ci_labels with
    | Some l => l = [l0; l1]
    | None => exists label, attrs w !! "_label" = Some (PStr label) /\
                            [l0; l1] = default_ci_labels label a
    end /\
    broadcast2 (greenwood_upper z) (np_log <$> est) cumulative_sq_ = Some upper /\
    broadcast2 (greenwood_lower z) (np_log <$> est) cumulative_sq_ = Some lower /\
    length upper = length tl /\ length lower = length tl /\
    df = {| df_index := Some tl;
            df_columns := if decide (l0 = l1) then [(l1, lower)]
                          else [(l0, upper); (l1, lower)] |})
    (fun _ _ => True) w).
  { unfold wp in Hwp. destruct (_bounds cumulative_sq_ a ci_labels w) as [w' [e|df']];
      [discriminate|]. cbn in Hres. injection Hres as ->. exact Hwp. }
  clear Hres. unfold _bounds. cbv zeta. fold z.
  repeat (wp_step_core; wp_simpl); try done.
  all: repeat match goal with
              | H : as_array ?p = Some _ |- _ =>
                  destruct p; try discriminate H; cbn in H; injection H as ->
              | H : as_frame ?p = Some _ |- _ =>
                  destruct p; try discriminate H; cbn in H; injection H as ->
              | H : as_str ?p = Some _ |- _ =>
                  destruct p; try discriminate H; cbn in H; injection H as ->
              end.
  all: match goal with
       | H : fmap _ <$> frame_values ?d = Some _ |- _ =>
           unfold frame_values in H; destruct (df_columns d) as [|[c col] [|]] eqn:Hcols;
           try discriminate H; cbn in H; injection H as <-
       end.
  all: repeat match goal with
              | H : frame_setitem _ _ _ = inr _ |- _ =>
                  let Hl := fresh "Hlen" in
                  pose proof (frame_setitem_length _ _ _ _ H) as Hl;
                  apply frame_setitem_inr in H; subst
              end.
  all: cbn [frame_nrows frame_of_index df_index df_columns columns_set] in *.
  all: do 8 eexists; split; [reflexivity|]; split; [reflexivity|]; split; [eassumption|].
  all: split; [first [reflexivity | eexists; split; reflexivity]|].
  all: split; [eassumption|]; split; [eassumption|].
  all: split; [assumption|]; split; [assumption|]; reflexivity.
Qed.
End BoundsMore.

Section BoundsBinary64.
Open Scope float_scope.
Variables flog fexp : float -> float.
Hypothesis flog_ieee : ieee_log flog.
Hypothesis flog_one : flog 1 = 0.
Hypothesis fexp_nan : fexp nan = nan.
Context {lib : Collaborators float}.

Let FE : NpElem float := float_elem flog fexp.

(** An estimate of exactly 1 with no variance: [log(-0) + z * 0 / 0]. *)
Lemma greenwood_at_one (z : float) :
  greenwood_upper (FE := FE) z (flog 1) 0 = nan /\
  greenwood_lower (FE := FE) z (flog 1) 0 = nan.
Proof using flog_ieee flog_one fexp_nan.
  unfold greenwood_upper, greenwood_lower. cbn. rewrite flog_one.
  change (- 0) with (-0). rewrite (log_neg_zero flog flog_ieee), zero_variance_over_zero.
  change (neg_infinity + nan) with nan. change (neg_infinity - nan) with nan.
  rewrite fexp_nan. change (- nan) with nan. rewrite fexp_nan. split; reflexivity.
Qed.

(** X9: in binary64, where the stored estimate is exactly 1 and the
    cumulative variance is 0, as at the start of a survival curve, every
    column of the band that [_bounds] returns holds not-a-number: the
    logarithm of the estimate is 0 and the formula divides [z * 0] by it. *)
Theorem bounds_nan_where_estimate_is_one (cumulative_sq_ : list float) (a : float)
    (ci_labels : option (list string)) (w : world float) (df estimate : DataFrame float)
    (est_label : string) (est : list float) (i : nat) :
  attrs w !! "_KaplanMeierFitter__estimate" = Some (PFrame estimate) ->
  df_columns estimate = [(est_label, est)] ->
  length est = length cumulative_sq_ ->
  est !! i = Some 1 -> cumulative_sq_ !! i = Some 0 ->
  (_bounds (FE := FE) cumulative_sq_ a ci_labels w).2 = inr df ->
  df_columns df <> [] /\ Forall (fun col => col.2 !! i = Some nan) (df_columns df).
Proof using flog_ieee flog_one fexp_nan.
  intros Hest Hcols Hlen Hone Hzero Hres.
  enough (Hwp : wp (_bounds (FE := FE) cumulative_sq_ a ci_labels)
            (fun df _ => df_columns df <> [] /\
                         Forall (fun col => col.2 !! i = Some nan) (df_columns df))
            (fun _ _ => True) w).
  { unfold wp in Hwp. destruct (_bounds cumulative_sq_ a ci_labels w) as [w' [e|df']];
      [discriminate|]. cbn in Hres. injection Hres as ->. exact Hwp. }
  clear Hres. unfold _bounds. cbv zeta.
  repeat (wp_step_core; wp_simpl); try done.
  all: match goal with
       | H : fmap _ <$> frame_values _ = Some _ |- _ =>
           unfold frame_values in H; rewrite Hcols in H; cbn in H; injection H as <-
       end.
  all: repeat match goal with
              | H : broadcast2 _ _ _ = Some _ |- _ =>
                  unfold broadcast2 in H; rewrite length_fmap in H;
                  destruct (decide _) as [_|Hne] in H; [|contradiction];
                  injection H as <-
              | H : frame_setitem _ _ _ = inr _ |- _ =>
                  apply frame_setitem_inr in H; subst
              end.
  all: cbn [frame_of_index df_index df_columns columns_set].
  all: destruct (decide _); (split; [discriminate|]).
  all: repeat constructor; cbn [snd].
  all: rewrite lookup_zip_with, list_lookup_fmap, Hone, Hzero; cbn.
  all: f_equal; apply greenwood_at_one.
Qed.
End BoundsBinary64.

Section BoundsInstances.
Open Scope float_scope.

(** Instance of X7's theorem: a median stored on the fitter does not
    reach [_bounds]. *)
Lemma bounds_reads_witness :
  (_bounds (FE := table_elem) (lib := single_row_lib) [0] 0x1.999999999999ap-5 None
           start_world).2
  = (_bounds (FE := table_elem) (lib := single_row_lib) [0] 0x1.999999999999ap-5 None
             (set_attr "median_" (PFloat 1) start_world)).2.
Proof.
  apply (bounds_reads (FE := table_elem) (lib := single_row_lib)); reflexivity.
Defined.

(** Instance of X8's theorem: the same label twice leaves one column. *)
Lemma bounds_columns_witness :
  exists lower,
    (_bounds (FE := table_elem) (lib := single_row_lib) [0] 0x1.999999999999ap-5
             (Some ["band"; "band"]%string) start_world).2
    = inr {| df_index := Some [0]; df_columns := [("band"%string, lower)] |}.
Proof.
  assert (Hres : (_bounds (FE := table_elem) (lib := single_row_lib) [0]
                    0x1.999999999999ap-5 (Some ["band"; "band"]%string) start_world).2
                 = inr {| df_index := Some [0]; df_columns := [("band"%string, [nan])] |})
    by (vm_compute; reflexivity).
  destruct (bounds_columns (FE := table_elem) (lib := single_row_lib) _ _ _ _ _ Hres)
    as (tl & estimate & est_label & est & l0 & l1 & upper & lower & _ & _ & _ & Hl & _).
  injection Hl as <- <-. exists [nan]. exact Hres.
Defined.

(** Instance of X9's theorem: the band at the start of the curve, under
    the default names. *)
Lemma bounds_nan_where_estimate_is_one_witness :
  (_bounds (FE := table_elem) (lib := single_row_lib) [0] 0x1.999999999999ap-5 None
           start_world).2
  = inr {| df_index := Some [0];
           df_columns := [("KM_estimate_upper_0.95"%string, [nan]);
                          ("KM_estimate_lower_0.95"%string, [nan])] |} /\
  Forall (fun col : string * list float => col.2 !! 0%nat = Some nan)
         [("KM_estimate_upper_0.95"%string, [nan]);
          ("KM_estimate_lower_0.95"%string, [nan])].
Proof.
  assert (Hres : (_bounds (FE := table_elem) (lib := single_row_lib) [0]
                    0x1.999999999999ap-5 None start_world).2
                 = inr {| df_index := Some [0];
                          df_columns := [("KM_estimate_upper_0.95"%string, [nan]);
                                         ("KM_estimate_lower_0.95"%string, [nan])] |})
    by (vm_compute; reflexivity).
  split; [exact Hres|].
  apply (bounds_nan_where_estimate_is_one log_table exp_table log_table_ieee eq_refl eq_refl
           (lib := single_row_lib) [0] 0x1.999999999999ap-5 None start_world _
           (frame_of_column "KM_estimate" [1]) "KM_estimate" [1] 0
           eq_refl eq_refl eq_refl eq_refl eq_refl Hres).
Defined.
End BoundsInstances.

Section GreenwoodVariance.
Local Open Scope R_scope.

(** X10: over the reals, for an estimate strictly between 0 and 1 and a
    non-negative quantile, the two band formulas return the estimate
    itself when the cumulative variance is zero, and a larger cumulative
    variance never narrows the band: the lower bound does not rise and
    the upper bound does not fall. *)
Theorem greenwood_band_variance (z S V V' : R) :
  0 <= z -> 0 < S < 1 -> 0 <= V <= V' ->
  greenwood_upper z (ln S) 0 = S /\ greenwood_lower z (ln S) 0 = S /\
  greenwood_lower z (ln S) V' <= greenwood_lower z (ln S) V /\
  greenwood_upper z (ln S) V <= greenwood_upper z (ln S) V'.
Proof.
  intros Hz [HS0 HS1] [HV HVV']. unfold greenwood_lower, greenwood_upper. cbn.
  assert (Hv : ln S < 0) by (rewrite <- ln_1; apply ln_increasing; lra).
  set (v := ln S) in *.
  assert (HS : exp v = S) by (apply exp_ln, HS0).
  assert (Hinv : / v < 0) by apply Rinv_lt_0_compat, Hv.
  assert (Hsq : 0 <= R_sqrt.sqrt V) by apply sqrt_pos.
  assert (Hsq' : R_sqrt.sqrt V <= R_sqrt.sqrt V') by (apply sqrt_le_1_alt; exact HVV').
  assert (Hu : z * R_sqrt.sqrt V' / v <= z * R_sqrt.sqrt V / v).
  { unfold Rdiv. assert (z * R_sqrt.sqrt V <= z * R_sqrt.sqrt V') by nra. nra. }
  rewrite sqrt_0, Rmult_0_r. unfold Rdiv at 1 2. rewrite Rmult_0_l, Rplus_0_r, Rminus_0_r.
  rewrite exp_ln by lra. rewrite Ropp_involutive, HS.
  split; [reflexivity|]. split; [reflexivity|]. split.
  - apply exp_le. apply Ropp_le_contravar. apply exp_le. lra.
  - apply exp_le. apply Ropp_le_contravar. apply exp_le. lra.
Qed.

(** Instance of X10's theorem: an estimate of one half, variances 0 and 1,
    the quantile 2. *)
Lemma greenwood_band_variance_witness :
  greenwood_upper 2 (ln (1 / 2)) 0 = 1 / 2 /\
  greenwood_upper 2 (ln (1 / 2)) 0 <= greenwood_upper 2 (ln (1 / 2)) 1.
Proof.
  destruct (greenwood_band_variance 2 (1 / 2) 0 1 ltac:(lra) ltac:(lra) ltac:(lra))
    as (Hup & _ & _ & Hwide).
  split; [exact Hup|exact Hwide].
Defined.
End GreenwoodVariance.

(* ================================================================== *)
(** ** More about [fit] *)

Section FitMore.
Context {F : Type} {FA : NpArith F} {FE : NpElem F} {FI : NpInf F}.
Context {lib : Collaborators F}.
Variables (durations : list F) (event_observed timeline entry : option (list F)).
Variables (label : string) (alpha : option F) (left_censorship : bool).
Variables (ci_labels : option (list string)) (weights : option weights_arg).
Variable w : world F.

Local Abbreviation the_fit :=
  (fit durations event_observed timeline entry label alpha left_censorship
       ci_labels weights).

(** X11: validation comes first. When [check_nans_or_infs] rejects the
    durations, or accepts them and rejects the event indicators, [fit]
    raises that exception and leaves the fitter, the warnings and the
    process exactly as they were: no warning about the weights has been
    issued yet and nothing has been stored. *)
Theorem fit_validation_first (e : exn) :
  (check_nans_or_infs durations = inl e ->
     the_fit w = (w, inl (Raised "check_nans_or_infs" e))) /\
  (forall observed,
     check_nans_or_infs durations = inr tt -> event_observed = Some observed ->
     check_nans_or_infs observed = inl e ->
     the_fit w = (w, inl (Raised "check_nans_or_infs" e))).
Proof.
  split.
  - intros Hd. unfold fit, _check_values, call, mbind, SE_bind. rewrite Hd. reflexivity.
  - intros observed Hd -> Ho. unfold fit, _check_values, call, mbind, SE_bind.
    rewrite Hd, Ho. reflexivity.
Qed.

(** X12: [alpha if alpha else self.alpha] takes a zero for no value: a
    call with [alpha] equal to zero ([0.0] or [-0.0]) is the call with
    [alpha=None]. *)
Theorem fit_alpha_zero_is_default (a : F) :
  np_eqb a np_zero = true ->
  fit durations event_observed timeline entry label (Some a) left_censorship
      ci_labels weights w
  = fit durations event_observed timeline entry label None left_censorship
        ci_labels weights w.
Proof.
  intros Ha. unfold fit, alpha_or_default. rewrite Ha. reflexivity.
Qed.

Lemma wp_fit_other_attributes (k : string) :
  k ∉ fit_writes left_censorship ->
  wp the_fit (fun _ w' => attrs w' !! k = attrs w !! k)
             (fun _ w' => attrs w' !! k = attrs w !! k) w.
Proof.
  intros Hk. unfold fit_writes in Hk.
  repeat (apply not_elem_of_cons in Hk as [? Hk]). clear Hk.
  wp_run; wp_attrs;
    rewrite ?lookup_insert_ne by (intros Hq; symmetry in Hq; contradiction);
    reflexivity.
Qed.

(** X13: [fit] assigns to fifteen attribute names and to no other:
    whether the call returns or raises, every other attribute of the
    fitter, [alpha] among them, holds what it held before. *)
Theorem fit_preserves_other_attributes (k : string) :
  k ∉ fit_writes left_censorship ->
  attrs (the_fit w).1 !! k = attrs w !! k.
Proof.
  intros Hk. pose proof (wp_outcome _ _ _ _ (wp_fit_other_attributes k Hk)) as Ho.
  destruct ((the_fit w).2); exact Ho.
Qed.

Lemma wp_fit_inputs :
  wp the_fit
     (fun _ w' =>
        exists d ev tl en tab,
          _preprocess_inputs durations event_observed timeline entry weights
          = inr (d, ev, tl, en, tab) /\
          attrs w' !! "durations" = Some (PArray d) /\
          attrs w' !! "event_observed" = Some (PArray ev) /\
          attrs w' !! "timeline" = Some (PArray tl) /\
          attrs w' !! "entry" = Some (from_option PArray PNone en) /\
          attrs w' !! "event_table" = Some (PTable tab) /\
          attrs w' !! "_label" = Some (PStr label) /\
          attrs w' !! "_predict_label" = Some (PStr label))
     (fun _ _ => True) w.
Proof.
  wp_run; try done;
    (do 5 eexists; split; [reflexivity|]; repeat split; wp_lookup; reflexivity).
Qed.

(** X14: a call that returns has stored what [_preprocess_inputs]
    returned, piece by piece, as [durations], [event_observed],
    [timeline], [entry] ([None] when there are no entry times) and
    [event_table], and the label as [_label] and [_predict_label]. *)
Theorem fit_success_stores_inputs :
  (fit durations event_observed timeline entry label alpha left_censorship
       ci_labels weights w).2 = inr tt ->
  exists d ev tl en tab,
    _preprocess_inputs durations event_observed timeline entry weights
    = inr (d, ev, tl, en, tab) /\
    attrs (the_fit w).1 !! "durations" = Some (PArray d) /\
    attrs (the_fit w).1 !! "event_observed" = Some (PArray ev) /\
    attrs (the_fit w).1 !! "timeline" = Some (PArray tl) /\
    attrs (the_fit w).1 !! "entry" = Some (from_option PArray PNone en) /\
    attrs (the_fit w).1 !! "event_table" = Some (PTable tab) /\
    attrs (the_fit w).1 !! "_label" = Some (PStr label) /\
    attrs (the_fit w).1 !! "_predict_label" = Some (PStr label).
Proof.
  intros Hres. pose proof (wp_outcome _ _ _ _ wp_fit_inputs) as Ho.
  rewrite Hres in Ho. exact Ho.
Qed.

Lemma wp_fit_results :
  wp the_fit
     (fun _ w' =>
        exists tab tl lsf csq a ci med,
          let estimate := frame_of_column label (np_exp <$> lsf) in
          _additive_estimate tab tl _additive_f _additive_var left_censorship (proc w)
          = (proc w', inr (lsf, csq)) /\
          effective_alpha alpha (attrs w) = Some (PFloat a) /\
          attrs w' !! estimate_name_of left_censorship = Some (PFrame estimate) /\
          attrs w' !! "_KaplanMeierFitter__estimate" = Some (PFrame estimate) /\
          attrs w' !! "_cumulative_sq_" = Some (PArray csq) /\
          (_bounds csq a ci_labels w').2 = inr ci /\
          attrs w' !! "confidence_interval_" = Some (PFrame ci) /\
          median_survival_times estimate left_censorship = inr med /\
          attrs w' !! "median_" = Some (PFloat med) /\
          attrs w' !! "_estimation_method" = Some (PStr (estimate_name_of left_censorship)) /\
          attrs w' !! ("plot_" +:+ estimate_name_of left_censorship) = Some (PMethod "plot"))
     (fun _ _ => True) w.
Proof.
  wp_run; try done.
  all: repeat match goal with
              | H : as_float ?p = Some _ |- _ =>
                  destruct p; try discriminate H; cbn in H; injection H as ->
              end.
  all: do 7 eexists; cbv zeta.
  all: split; [wp_attrs; eassumption|].
  all: split; [reflexivity|].
  all: split; [wp_lookup; reflexivity|].
  all: split; [wp_lookup; reflexivity|].
  all: split; [wp_lookup; reflexivity|].
  all: split; [match goal with H : (_bounds _ _ _ _).2 = inr _ |- _ =>
                 rewrite <- H; apply bounds_result_reads; intros; wp_lookup; reflexivity
               end|].
  all: split; [wp_lookup; reflexivity|].
  all: split; [eassumption|].
  all: repeat split; wp_lookup; reflexivity.
Qed.

(** X15: the results of a call that returns hang together. The estimate
    stored under the public name and the private one are the same frame,
    the exponential of what the scaffold accumulated, in one column named
    by the label; the median is [median_survival_times] of that frame;
    the stored band is what [_bounds] returns when it is run again on the
    fitted instance with the stored cumulative variance and the value
    [alpha] took; the process is left in the state in which the scaffold
    left it. *)
Theorem fit_success_results :
  (the_fit w).2 = inr tt ->
  exists tab tl lsf csq a ci med,
    let estimate := frame_of_column label (np_exp <$> lsf) in
    _additive_estimate tab tl _additive_f _additive_var left_censorship (proc w)
    = (proc (the_fit w).1, inr (lsf, csq)) /\
    effective_alpha alpha (attrs w) = Some (PFloat a) /\
    attrs (the_fit w).1 !! estimate_name_of left_censorship = Some (PFrame estimate) /\
    attrs (the_fit w).1 !! "_KaplanMeierFitter__estimate" = Some (PFrame estimate) /\
    attrs (the_fit w).1 !! "_cumulative_sq_" = Some (PArray csq) /\
    (_bounds csq a ci_labels (the_fit w).1).2 = inr ci /\
    attrs (the_fit w).1 !! "confidence_interval_" = Some (PFrame ci) /\
    median_survival_times estimate left_censorship = inr med /\
    attrs (the_fit w).1 !! "median_" = Some (PFloat med) /\
    attrs (the_fit w).1 !! "_estimation_method"
      = Some (PStr (estimate_name_of left_censorship)) /\
    attrs (the_fit w).1 !! ("plot_" +:+ estimate_name_of left_censorship)
      = Some (PMethod "plot").
Proof.
  intros Hres. pose proof (wp_outcome _ _ _ _ wp_fit_results) as Ho.
  rewrite Hres in Ho. exact Ho.
Qed.

End FitMore.

Section FitInstances.
Open Scope float_scope.

(** Instance of X11's theorem: a duration that is not a number, with a
    fractional weight: nothing is stored and no warning is issued. *)
Lemma fit_validation_first_witness :
  nan_duration_call
  = (fitted_before,
     inl (Raised "check_nans_or_infs" (TypeError "NaNs were detected in the dataset."))).
Proof.
  apply (fit_validation_first (FE := table_elem) (lib := single_row_lib)
           [nan] None None None "KM_estimate" None false None (Some (WFloat64 [0.5]%float))
           fitted_before).
  reflexivity.
Defined.

(** Instance of X12's theorem. *)
Lemma fit_alpha_zero_is_default_witness : zero_alpha_call = single_row_call.
Proof.
  apply (fit_alpha_zero_is_default (FE := table_elem) (lib := single_row_lib)). reflexivity.
Defined.

(** Instance of X13's theorem: the fitter's own [alpha]. *)
Lemma fit_preserves_other_attributes_witness :
  attrs single_row_call.1 !! "alpha" = Some (PFloat 0x1.999999999999ap-5).
Proof.
  refine (eq_trans
            (fit_preserves_other_attributes (FE := table_elem) (lib := single_row_lib)
               [5] None None (Some [5]) "KM_estimate" None false None None fitted_before
               "alpha" _) _).
  - intros Hin. unfold fit_writes in Hin.
    repeat (apply elem_of_cons in Hin as [Hin|Hin]; [discriminate Hin|]).
    apply elem_of_nil in Hin. exact Hin.
  - reflexivity.
Defined.

(** Instance of X14's theorem. *)
Lemma fit_success_stores_inputs_witness :
  attrs single_row_call.1 !! "durations" = Some (PArray [5]) /\
  attrs single_row_call.1 !! "entry" = Some (PArray [5]) /\
  attrs single_row_call.1 !! "event_table" = Some (PTable single_row_table).
Proof.
  assert (Hres : single_row_call.2 = inr tt) by (vm_compute; reflexivity).
  destruct (fit_success_stores_inputs (FE := table_elem) (lib := single_row_lib)
              [5] None None (Some [5]) "KM_estimate" None false None None fitted_before
              Hres)
    as (d & ev & tl & en & tab & Hpre & Hd & _ & _ & Hen & Htab & _).
  injection Hpre as <- <- <- <- <-.
  split; [exact Hd|]. split; [exact Hen|exact Htab].
Defined.

(** Instance of X15's theorem: the median of the single subject. *)
Lemma fit_success_results_witness :
  attrs single_row_call.1 !! "median_" = Some (PFloat 5) /\
  attrs single_row_call.1 !! "_estimation_method" = Some (PStr "survival_function_").
Proof.
  assert (Hres : single_row_call.2 = inr tt) by (vm_compute; reflexivity).
  destruct (fit_success_results (FE := table_elem) (lib := single_row_lib)
              [5] None None (Some [5]) "KM_estimate" None false None None fitted_before
              Hres)
    as (tab & tl & lsf & csq & a & ci & med & _ & _ & _ & _ & _ & _ & _ & Hmed & Hm & Hname & _).
  injection Hmed as <-. split; [exact Hm|exact Hname].
Defined.

End FitInstances.

(* ================================================================== *)
(** ** [survival_function_at_times] *)

Section QueryFacts.
Context {F : Type} {q : Queries F}.
Implicit Types (w : world F).

(** X17: on a fitter that has no [_label], one that was never fitted,
    [survival_function_at_times] raises [AttributeError] for [_label] and
    calls nothing, also when a label is passed: the attribute is read
    before [coalesce] is called. *)
Theorem survival_function_at_times_unfitted (times : list F) (label : pyval F) w :
  attrs w !! "_label" = None ->
  survival_function_at_times times label w = (w, inl (AttributeError "_label")).
Proof.
  intros Hl. unfold survival_function_at_times, self_getattr, mbind, SE_bind.
  rewrite Hl. reflexivity.
Qed.

(** X18: [survival_function_at_times] never changes the fitter, and a
    Series it returns holds what [predict] returned for the times over
    the index [_to_array] made of them, the two of one length, under the
    name [coalesce] chose between the label passed and the fitter's
    own. *)
Theorem survival_function_at_times_series (times : list F) (label : pyval F) w :
  (survival_function_at_times times label w).1 = w /\
  forall s, (survival_function_at_times times label w).2 = inr s ->
    exists self_label,
      attrs w !! "_label" = Some self_label /\
      coalesce label self_label = inr (s_name s) /\
      predict (attrs w) times = inr (s_values s) /\
      _to_array times = inr (s_index s) /\
      length (s_values s) = length (s_index s).
Proof.
  enough (Hwp : wp (survival_function_at_times times label)
            (fun s w' => w' = w /\
               exists self_label,
                 attrs w !! "_label" = Some self_label /\
                 coalesce label self_label = inr (s_name s) /\
                 predict (attrs w) times = inr (s_values s) /\
                 _to_array times = inr (s_index s) /\
                 length (s_values s) = length (s_index s))
            (fun _ w' => w' = w) w).
  { unfold wp in Hwp. destruct (survival_function_at_times times label w) as [w' [e|s]]; cbn.
    - split; [exact Hwp|]. intros s [=].
    - destruct Hwp as [-> Hs]. split; [reflexivity|]. intros s' [= <-]. exact Hs. }
  unfold survival_function_at_times. repeat wp_step_core; try done.
  unfold series_new in *. destruct (decide _) as [Hlen|]; [|discriminate].
  match goal with H : inr _ = inr _ |- _ => injection H as <- end.
  split; [reflexivity|]. eexists. repeat split; try eassumption; try reflexivity.
Qed.
End QueryFacts.

Section FitThenQuery.
Context {F : Type} {FA : NpArith F} {FE : NpElem F} {FI : NpInf F}.
Context {lib : Collaborators F} {q : Queries F}.

(** X19: after a call of [fit] that returned, [survival_function_at_times]
    finds the label of that call: it raises no [AttributeError], hands
    [coalesce] the label passed and the label of the fit, and its outcome
    is that of the four calls it makes in turn. *)
Theorem fit_then_survival_function_at_times
    (durations : list F) (event_observed timeline entry : option (list F))
    (label : string) (alpha : option F) (left_censorship : bool)
    (ci_labels : option (list string)) (weights : option weights_arg) (w : world F)
    (times : list F) (name : pyval F) :
  (fit durations event_observed timeline entry label alpha left_censorship
       ci_labels weights w).2 = inr tt ->
  let fitted := (fit durations event_observed timeline entry label alpha left_censorship
                     ci_labels weights w).1 in
  survival_function_at_times times name fitted
  = (fitted,
     match coalesce name (PStr label) with
     | inl e => inl (Raised "coalesce" e)
     | inr name' =>
         match predict (attrs fitted) times with
         | inl e => inl (Raised "predict" e)
         | inr data =>
             match _to_array times with
             | inl e => inl (Raised "_to_array" e)
             | inr index =>
                 match series_new data index name' with
                 | inl e => inl (Raised "Series" e)
                 | inr s => inr s
                 end
             end
         end
     end).
Proof.
  intros Hres fitted.
  pose proof (wp_outcome _ _ _ _
                (wp_fit_inputs durations event_observed timeline entry label alpha
                   left_censorship ci_labels weights w)) as Ho.
  rewrite Hres in Ho. destruct Ho as (d & ev & tl & en & tab & _ & _ & _ & _ & _ & _ & Hl & _).
  fold fitted in Hl.
  unfold survival_function_at_times, self_getattr, call_on_self, call, mbind, SE_bind.
  rewrite Hl. destruct (coalesce name (PStr label)) as [e|name']; [reflexivity|].
  destruct (predict (attrs fitted) times) as [e|data]; [reflexivity|].
  destruct (_to_array times) as [e|index]; [reflexivity|].
  destruct (series_new data index name'); reflexivity.
Qed.
End FitThenQuery.

Section QueryInstances.
Open Scope float_scope.

(** Instance of X17's theorem: a fitter that holds [alpha] only. *)
Lemma survival_function_at_times_unfitted_witness :
  survival_function_at_times (q := zero_queries) [1; 2] (PStr "S")
    {| attrs := {["alpha" := PFloat 0x1.999999999999ap-5]}; warned := [];
       proc := fresh_process |}
  = ({| attrs := {["alpha" := PFloat 0x1.999999999999ap-5]}; warned := [];
        proc := fresh_process |},
     inl (AttributeError "_label")).
Proof.
  apply (survival_function_at_times_unfitted (q := zero_queries)). reflexivity.
Defined.

(** Instance of X18's and X19's theorems: the fitted single subject asked
    at two times, without a label and with one. *)
Lemma survival_function_at_times_series_witness :
  (survival_function_at_times (q := zero_queries) [1; 2] PNone single_row_call.1).1
  = single_row_call.1.
Proof.
  apply (survival_function_at_times_series (q := zero_queries) [1; 2] PNone
           single_row_call.1).
Defined.

Lemma fit_then_survival_function_at_times_witness :
  (survival_function_at_times (q := zero_queries) [1; 2] PNone single_row_call.1).2
  = inr {| s_values := [0; 0]; s_index := [1; 2]; s_name := PStr "KM_estimate" |} /\
  (survival_function_at_times (q := zero_queries) [1; 2] (PStr "S") single_row_call.1).2
  = inr {| s_values := [0; 0]; s_index := [1; 2]; s_name := PStr "S" |}.
Proof.
  assert (Hres : single_row_call.2 = inr tt) by (vm_compute; reflexivity).
  pose proof (fit_then_survival_function_at_times (FE := table_elem)
                (lib := single_row_lib) (q := zero_queries)
                [5] None None (Some [5]) "KM_estimate" None false None None fitted_before
                [1; 2] PNone Hres) as Hnone.
  pose proof (fit_then_survival_function_at_times (FE := table_elem)
                (lib := single_row_lib) (q := zero_queries)
                [5] None None (Some [5]) "KM_estimate" None false None None fitted_before
                [1; 2] (PStr "S") Hres) as Hsome.
  cbv zeta in Hnone, Hsome. unfold single_row_call.
  rewrite Hnone, Hsome. split; reflexivity.
Defined.
End QueryInstances.
